(** * fb-messenger-es6: webhook signature validation and the platform client

    A shallow embedding of [src/client/validateSignature.js] and of the
    request path of the platform client ([Client.proxyFetchFacebook] and the
    messenger-profile operations), with the properties of the specification
    stated over it.

    Conventions of the embedding.
    - A JavaScript string is a [string]; its characters are the bytes of its
      UTF-8 encoding, so that the key and body bytes Node derives from a
      string are the characters themselves.
    - A [Buffer] is a [list byte].
    - A method is a function of the receiver and of the log written so far
      that returns a completion (normal or thrown) together with the receiver
      and the log afterwards.
    - A promise is represented by the way it settles. *)

From Stdlib Require Import ZArith List String Ascii Bool Lia.
From Stdlib.Strings Require Import Byte.
From stdpp Require Import base option gmap strings pretty.
Import ListNotations.

Set Warnings "-register-all".

Local Open Scope string_scope.
Local Open Scope list_scope.
Local Open Scope Z_scope.

(** ** Node's [crypto] module: SHA-1, HMAC and the hex encoding *)

Module Crypto.

Definition byte_to_Z (b : byte) : Z := Z.of_N (Byte.to_N b).

Definition byte_of_Z (z : Z) : byte :=
  match Byte.of_N (Z.to_N (z mod 256)) with
  | Some b => b
  | None => x00
  end.

Definition mask32 : Z := 4294967295.

Definition add32 (x y : Z) : Z := Z.land (x + y) mask32.

Definition not32 (x : Z) : Z := Z.lxor x mask32.

Definition rotl32 (n x : Z) : Z :=
  Z.lor (Z.land (Z.shiftl x n) mask32) (Z.shiftr x (32 - n)).

(** FIPS 180-4, 5.1.1: append the bit 1, then zero bits up to 448 modulo 512,
    then the length of the message in bits as a 64-bit big-endian integer. *)
Definition be_bytes (n : nat) (z : Z) : list Z :=
  map (fun i => Z.land (Z.shiftr z (8 * Z.of_nat i)) 255) (rev (seq 0 n)).

Definition pad (msg : list Z) : list Z :=
  let len := Z.of_nat (length msg) in
  let zeros := Z.to_nat ((55 - len) mod 64) in
  msg ++ [128] ++ repeat 0 zeros ++ be_bytes 8 (8 * len).

Fixpoint words_of_bytes (bs : list Z) : list Z :=
  match bs with
  | a :: b :: c :: d :: rest =>
      Z.lor (Z.shiftl a 24) (Z.lor (Z.shiftl b 16) (Z.lor (Z.shiftl c 8) d))
        :: words_of_bytes rest
  | _ => []
  end.

(** The message schedule, newest word first:
    W(t) = ROTL 1 (W(t-3) xor W(t-8) xor W(t-14) xor W(t-16)). *)
Fixpoint extend_schedule (n : nat) (ws : list Z) : list Z :=
  match n with
  | O => ws
  | S n' =>
      let w := rotl32 1 (Z.lxor (Z.lxor (nth 2 ws 0) (nth 7 ws 0))
                                (Z.lxor (nth 13 ws 0) (nth 15 ws 0))) in
      extend_schedule n' (w :: ws)
  end.

Definition schedule (block : list Z) : list Z :=
  rev (extend_schedule 64 (rev (words_of_bytes block))).

Definition f_t (t : nat) (b c d : Z) : Z :=
  if (t <? 20)%nat then Z.lor (Z.land b c) (Z.land (not32 b) d)
  else if (t <? 40)%nat then Z.lxor (Z.lxor b c) d
  else if (t <? 60)%nat then Z.lor (Z.lor (Z.land b c) (Z.land b d)) (Z.land c d)
  else Z.lxor (Z.lxor b c) d.

Definition K_t (t : nat) : Z :=
  if (t <? 20)%nat then 1518500249
  else if (t <? 40)%nat then 1859775393
  else if (t <? 60)%nat then 2400959708
  else 3395469782.

Record hash_state := HashState { hA : Z; hB : Z; hC : Z; hD : Z; hE : Z }.

Definition H0 : hash_state :=
  HashState 1732584193 4023233417 2562383102 271733878 3285377520.

Definition round (s : hash_state) (tw : nat * Z) : hash_state :=
  let '(t, w) := tw in
  let temp :=
    add32 (add32 (add32 (add32 (rotl32 5 (hA s)) (f_t t (hB s) (hC s) (hD s)))
                        (hE s)) (K_t t)) w in
  HashState temp (hA s) (rotl32 30 (hB s)) (hC s) (hD s).

Definition compress (h : hash_state) (block : list Z) : hash_state :=
  let s := fold_left round (combine (seq 0 80) (schedule block)) h in
  HashState (add32 (hA h) (hA s)) (add32 (hB h) (hB s)) (add32 (hC h) (hC s))
            (add32 (hD h) (hD s)) (add32 (hE h) (hE s)).

Fixpoint process_blocks (n : nat) (h : hash_state) (bs : list Z) : hash_state :=
  match n with
  | O => h
  | S n' => process_blocks n' (compress h (firstn 64 bs)) (skipn 64 bs)
  end.

Definition sha1_Z (msg : list Z) : list Z :=
  let p := pad msg in
  let h := process_blocks (length p / 64) H0 p in
  be_bytes 4 (hA h) ++ be_bytes 4 (hB h) ++ be_bytes 4 (hC h)
    ++ be_bytes 4 (hD h) ++ be_bytes 4 (hE h).

Definition sha1 (msg : list byte) : list byte :=
  map byte_of_Z (sha1_Z (map byte_to_Z msg)).

(** RFC 2104 with the 64-byte block of SHA-1. *)
Definition block_size : nat := 64.

Definition xor_with (c : Z) (bs : list byte) : list byte :=
  map (fun b => byte_of_Z (Z.lxor (byte_to_Z b) c)) bs.

Definition hmac_key_block (key : list byte) : list byte :=
  let k := if (block_size <? length key)%nat then sha1 key else key in
  k ++ repeat x00 (block_size - length k).

Definition hmac_sha1 (key msg : list byte) : list byte :=
  let k := hmac_key_block key in
  sha1 (xor_with 92 k ++ sha1 (xor_with 54 k ++ msg)).

(** [digest('hex')]: two lowercase hexadecimal digits for each byte. *)
Definition hex_digit (n : Z) : ascii :=
  if n <? 10 then ascii_of_nat (Z.to_nat (48 + n))
  else ascii_of_nat (Z.to_nat (87 + n)).

Definition upper_hex_digit (n : Z) : ascii :=
  if n <? 10 then ascii_of_nat (Z.to_nat (48 + n))
  else ascii_of_nat (Z.to_nat (55 + n)).

Fixpoint hex (bs : list byte) : string :=
  match bs with
  | [] => EmptyString
  | b :: rest =>
      String (hex_digit (byte_to_Z b / 16))
        (String (hex_digit (byte_to_Z b mod 16)) (hex rest))
  end.

Fixpoint upper_hex (bs : list byte) : string :=
  match bs with
  | [] => EmptyString
  | b :: rest =>
      String (upper_hex_digit (byte_to_Z b / 16))
        (String (upper_hex_digit (byte_to_Z b mod 16)) (upper_hex rest))
  end.

End Crypto.

(** ** The JavaScript values, completions and effects the two files use *)

Module JS.

(** A [VNum] holds the canonical decimal text of the number (what
    Number::toString returns): two numbers are strictly equal exactly when
    their texts are.  A [VObj] lists the own properties of a plain object, the
    first entry of a key being the property.  A [VErr] is an instance of
    [Error] or of one of its subclasses.  A [VLogger] is a plain object whose
    members are the two functions [debug] and [error], which write to the
    log. *)
Inductive value : Type :=
| VUndefined
| VNull
| VBool (b : bool)
| VNum (text : string)
| VStr (s : string)
| VBuf (bytes : list byte)
| VArr (elems : list value)
| VObj (props : list (string * value))
| VErr (name message : string)
| VLogger.

Inductive completion (A : Type) : Type :=
| Normal (a : A)
| Throw (e : value).

Arguments Normal {A} a.
Arguments Throw {A} e.

Definition cbind {A B : Type} (c : completion A) (k : A -> completion B)
  : completion B :=
  match c with
  | Normal a => k a
  | Throw e => Throw e
  end.

Definition Error (message : string) : value := VErr "Error" message.
Definition TypeError (message : string) : value := VErr "TypeError" message.
Definition ReferenceError (message : string) : value :=
  VErr "ReferenceError" message.

(** *** The receiver, the log, and methods as state transformers *)

Record log_entry := LogEntry { level : string; logged : value }.

Record world (T : Type) := World { this : T; log : list log_entry }.

Arguments World {T} this log.
Arguments this {T} w.
Arguments log {T} w.

Definition M (T A : Type) : Type := world T -> completion A * world T.

Definition ret {T A : Type} (a : A) : M T A := fun w => (Normal a, w).

Definition throw {T A : Type} (e : value) : M T A := fun w => (Throw e, w).

Definition bind {T A B : Type} (c : M T A) (k : A -> M T B) : M T B :=
  fun w =>
    match c w with
    | (Normal a, w') => k a w'
    | (Throw e, w') => (Throw e, w')
    end.

Definition lift {T A : Type} (c : completion A) : M T A := fun w => (c, w).

Definition get_this {T : Type} : M T T := fun w => (Normal (this w), w).

Definition set_this {T : Type} (t : T) : M T unit :=
  fun w => (Normal tt, World t (log w)).

Definition write_log {T : Type} (lvl : string) (v : value) : M T unit :=
  fun w => (Normal tt, World (this w) (log w ++ [LogEntry lvl v])).

(** A computation that leaves the receiver as it found it. *)
Definition keeps_this {T R : Type} (c : world T -> R * world T) : Prop :=
  forall w : world T, this (snd (c w)) = this w.

Declare Scope js_scope.
Delimit Scope js_scope with js.
Notation "'do' x <- c ; k" := (bind c (fun x => k))
  (at level 10, x name, c at level 100, k at level 200) : js_scope.
Notation "'run' c ; k" := (bind c (fun _ => k))
  (at level 10, c at level 100, k at level 200) : js_scope.

(** *** Property access and conversions on data values *)

Fixpoint own_property (props : list (string * value)) (key : string)
  : option value :=
  match props with
  | [] => None
  | (k, v) :: rest => if String.eqb k key then Some v else own_property rest key
  end.

Definition has_own (props : list (string * value)) (key : string) : bool :=
  match own_property props key with
  | Some _ => true
  | None => false
  end.

(** *** Text: buffers decoded, strings by characters and by units *)

(** [buffer.toString()]: the bytes decoded as UTF-8, every ill-formed
    sequence giving the replacement character U+FFFD.  The decoder is the
    one of the Encoding standard: a leading byte sets how many continuation
    bytes are needed and the range of the next one; a byte outside the range
    ends the sequence with a replacement and is looked at again as a first
    byte; input that ends inside a sequence gives a replacement. *)
Record utf8_state := {
  needed : nat;
  lower : Z;
  upper : Z;
  pending : list byte
}.

Definition replacement : list byte := [xef; xbf; xbd].

Definition utf8_start (b : byte) : list byte * option utf8_state :=
  let n := Crypto.byte_to_Z b in
  if n <=? 127 then ([b], None)
  else if (194 <=? n) && (n <=? 223) then
    ([], Some {| needed := 1; lower := 128; upper := 191; pending := [b] |})
  else if (224 <=? n) && (n <=? 239) then
    ([], Some {| needed := 2;
                 lower := if n =? 224 then 160 else 128;
                 upper := if n =? 237 then 159 else 191;
                 pending := [b] |})
  else if (240 <=? n) && (n <=? 244) then
    ([], Some {| needed := 3;
                 lower := if n =? 240 then 144 else 128;
                 upper := if n =? 244 then 143 else 191;
                 pending := [b] |})
  else (replacement, None).

Definition utf8_step (st : option utf8_state) (b : byte)
  : list byte * option utf8_state :=
  match st with
  | None => utf8_start b
  | Some s =>
      let n := Crypto.byte_to_Z b in
      if (lower s <=? n) && (n <=? upper s) then
        match needed s with
        | O | S O => (pending s ++ [b], None)
        | S k =>
            ([], Some {| needed := k; lower := 128; upper := 191;
                         pending := pending s ++ [b] |})
        end
      else
        let '(out, st') := utf8_start b in (replacement ++ out, st')
  end.

Fixpoint utf8_decode (st : option utf8_state) (bs : list byte) : list byte :=
  match bs with
  | [] => match st with
          | None => []
          | Some _ => replacement
          end
  | b :: rest =>
      let '(out, st') := utf8_step st b in out ++ utf8_decode st' rest
  end.

Definition Buffer_toString (bytes : list byte) : string :=
  string_of_list_byte (utf8_decode None bytes).

(** The characters of a string as iteration yields them: a leading byte
    with the continuation bytes that follow it. *)
Definition continuation (c : ascii) : bool :=
  let n := nat_of_ascii c in ((128 <=? n) && (n <? 192))%nat.

Fixpoint code_points (s : string) : list string :=
  match s with
  | EmptyString => []
  | String c rest =>
      let following := code_points rest in
      match rest, following with
      | String d _, chunk :: chunks =>
          if continuation d then String c chunk :: chunks
          else String c EmptyString :: chunk :: chunks
      | _, chunks => String c EmptyString :: chunks
      end
  end.

(** The units of a string, which its indices and its [length] count: a
    character of the basic plane is one unit; a character outside it, four
    bytes here, is the two surrogates of its UTF-16 form, each written in
    three bytes the way UTF-8 writes a code point of that value. *)
Definition three_bytes (u : Z) : string :=
  string_of_list_byte
    [Crypto.byte_of_Z (Z.lor 224 (Z.shiftr u 12));
     Crypto.byte_of_Z (Z.lor 128 (Z.land (Z.shiftr u 6) 63));
     Crypto.byte_of_Z (Z.lor 128 (Z.land u 63))].

Definition units_of (character : string) : list string :=
  match map Crypto.byte_to_Z (list_byte_of_string character) with
  | [b0; b1; b2; b3] =>
      if 240 <=? b0 then
        let cp := Z.lor (Z.shiftl (Z.land b0 7) 18)
                    (Z.lor (Z.shiftl (Z.land b1 63) 12)
                       (Z.lor (Z.shiftl (Z.land b2 63) 6) (Z.land b3 63))) in
        let c := cp - 65536 in
        [three_bytes (55296 + Z.shiftr c 10);
         three_bytes (56320 + Z.land c 1023)]
      else [character]
  | _ => [character]
  end.

Definition utf16_units (s : string) : list string :=
  flat_map units_of (code_points s).

(** [ToString].  A plain object inherits Object.prototype.toString unless an
    own [toString] property, which in parsed data is never callable, hides it;
    then [valueOf] gives no primitive either and the conversion throws. *)
Fixpoint to_string (v : value) : completion string :=
  match v with
  | VUndefined => Normal "undefined"
  | VNull => Normal "null"
  | VBool b => Normal (if b then "true" else "false")
  | VNum text => Normal text
  | VStr s => Normal s
  | VBuf bytes => Normal (Buffer_toString bytes)
  | VArr elems =>
      let element (x : value) : completion string :=
        match x with
        | VUndefined | VNull => Normal EmptyString
        | _ => to_string x
        end in
      (fix join (l : list value) : completion string :=
         match l with
         | [] => Normal EmptyString
         | x :: rest =>
             match rest with
             | [] => element x
             | _ :: _ =>
                 cbind (element x) (fun s =>
                 cbind (join rest) (fun r => Normal (s +:+ "," +:+ r)))
             end
         end) elems
  | VObj props =>
      if has_own props "toString"
      then Throw (TypeError "Cannot convert object to primitive value")
      else Normal "[object Object]"
  | VErr name message =>
      Normal (if String.eqb message EmptyString then name
              else if String.eqb name EmptyString then message
              else name +:+ ": " +:+ message)
  | VLogger => Normal "[object Object]"
  end.

(** An element of an array as [join] converts it. *)
Definition element_to_string (x : value) : completion string :=
  match x with
  | VUndefined | VNull => Normal EmptyString
  | _ => to_string x
  end.

(** The conversion of [v] to a string throws nothing but a TypeError. *)
Definition throws_TypeError (v : value) : Prop :=
  forall e : value,
    to_string v = Throw e -> exists message : string, e = TypeError message.

(** [v.key] for a key that no prototype defines as a data property: the own
    property when there is one, [undefined] otherwise; reading a property of
    [undefined] or [null] throws. *)
Definition get_data_property (v : value) (key : string) : completion value :=
  match v with
  | VUndefined =>
      Throw (TypeError ("Cannot read property '" +:+ key +:+ "' of undefined"))
  | VNull =>
      Throw (TypeError ("Cannot read property '" +:+ key +:+ "' of null"))
  | VObj props =>
      Normal (match own_property props key with
              | Some x => x
              | None => VUndefined
              end)
  | _ => Normal VUndefined
  end.

(** [v.message]: an error carries its message. *)
Definition get_message (v : value) : completion value :=
  match v with
  | VErr _ message => Normal (VStr message)
  | _ => get_data_property v "message"
  end.

(** [new Error(m)]: the message is [ToString m], or empty when [m] is
    [undefined]. *)
Definition new_Error (m : value) : completion value :=
  match m with
  | VUndefined => Normal (Error EmptyString)
  | _ => cbind (to_string m) (fun s => Normal (Error s))
  end.

(** [logger.member(v)] for a value [logger] found under some name. *)
Definition call_log_method {T : Type} (name member : string) (logger : value)
  (v : value) : M T unit :=
  match logger with
  | VLogger => write_log member v
  | VUndefined =>
      throw (TypeError ("Cannot read property '" +:+ member +:+ "' of undefined"))
  | VNull =>
      throw (TypeError ("Cannot read property '" +:+ member +:+ "' of null"))
  | _ => throw (TypeError (name +:+ "." +:+ member +:+ " is not a function"))
  end.

(** An identifier that no scope of the module binds is a property of the
    global object, and evaluating it when the global object has no such
    property throws. *)
Definition global_reference {T : Type} (globals : gmap string value)
  (x : string) : M T value :=
  match globals !! x with
  | Some v => ret v
  | None => throw (ReferenceError (x +:+ " is not defined"))
  end.

(** The global object of a Node process in which the application has added
    no global of its own.  Node's own globals are functions and host objects,
    which are not values of this embedding; none of them is named [log]. *)
Definition node_globals : gmap string value := ∅.

End JS.

Import Crypto JS.
Local Open Scope js_scope.

(** ** [util/validate] *)

Module Validate.

Definition absent_or_empty (item : value) : bool :=
  match item with
  | VUndefined | VNull => true
  | VStr s => String.eqb s EmptyString
  | VBuf bytes => match bytes with [] => true | _ :: _ => false end
  | _ => false
  end.

(** Modelled from the spec: [validate.notNull] of util/validate, a file of
    the library whose source is not at hand.  The construction contract of
    the verifier "accepts a non-empty shared secret" and "fails with a
    ConfigurationError if the secret is absent or empty".  The text of the
    message is not specified. *)
Definition notNull (item : value) (name from : string) : completion unit :=
  if absent_or_empty item
  then Throw (VErr "ConfigurationError" (name +:+ " is required in " +:+ from))
  else Normal tt.

End Validate.

(** ** [src/client/validateSignature.js] *)

Module ValidateSignature.

Record ValidateSignature := { appSecret : value }.

(** The request as Express hands it over: the header fields under their
    lower-case names, and [request.get(name)], which looks a name up without
    regard to case and yields [undefined] (here [None]) for a missing one. *)
Record Request := { headers : gmap string string }.

Definition lower (c : ascii) : ascii :=
  let n := nat_of_ascii c in
  if ((65 <=? n) && (n <=? 90))%nat then ascii_of_nat (n + 32) else c.

Fixpoint toLowerCase (s : string) : string :=
  match s with
  | EmptyString => EmptyString
  | String c rest => String (lower c) (toLowerCase rest)
  end.

Definition get (request : Request) (name : string) : option string :=
  headers request !! toLowerCase name.

(** [crypto.createHmac(algorithm, key)], [hmac.update(data)] and
    [hmac.digest('hex')].  A string key stands for its bytes; SHA-1, the one
    algorithm the source names, is the one embedded. *)
Record Hmac := { hmac_key : list byte; hmac_data : list byte }.

Definition createHmac (algorithm : string) (key : value) : completion Hmac :=
  if String.eqb algorithm "sha1" then
    match key with
    | VStr s => Normal {| hmac_key := list_byte_of_string s; hmac_data := [] |}
    | VBuf bytes => Normal {| hmac_key := bytes; hmac_data := [] |}
    | _ => Throw (TypeError "Key must be a buffer")
    end
  else Throw (Error "Unknown message digest").

Definition update (hmac : Hmac) (data : list byte) : Hmac :=
  {| hmac_key := hmac_key hmac; hmac_data := hmac_data hmac ++ data |}.

Definition digest_hex (hmac : Hmac) : string :=
  hex (hmac_sha1 (hmac_key hmac) (hmac_data hmac)).

(** [!expected] and [expected !== computed] for a header value that is a
    string or [undefined]. *)
Definition falsy (expected : option string) : bool :=
  match expected with
  | None => true
  | Some s => String.eqb s EmptyString
  end.

Definition strict_neq (expected : option string) (computed : string) : bool :=
  match expected with
  | None => true
  | Some s => negb (String.eqb s computed)
  end.

(** The error of a rejected request, [new Error('Invalid signature')]: the
    InvalidSignatureError of the specification. *)
Definition InvalidSignatureError : value := Error "Invalid signature".

Definition constructor (secret : value) : completion ValidateSignature :=
  cbind (Validate.notNull secret "app secret" "ValidateSignature.constructor")
        (fun _ => Normal {| appSecret := secret |}).

(** The module imports [crypto] and [validate] and nothing else, and
    [validate] declares [request], [response], [buffer], [expected], [hmac]
    and [computed]: [log] is bound by no scope of the file and is a reference
    to the global object. *)
Definition bound_identifiers : list string :=
  ["crypto"; "validate"; "ValidateSignature";
   "request"; "response"; "buffer"; "expected"; "hmac"; "computed"].

Definition validate (globals : gmap string value) (request : Request)
  (response : value) (buffer : list byte) : M ValidateSignature unit :=
  let expected := get request "X-Hub-Signature" in
  do self <- get_this;
  do hmac <- lift (createHmac "sha1" (appSecret self));
  let hmac := update hmac buffer in
  let computed := "sha1=" +:+ digest_hex hmac in
  if falsy expected || strict_neq expected computed
  then throw InvalidSignatureError
  else
    do log <- global_reference globals "log";
    call_log_method "log" "debug" log (VStr "Valid signature!").

(** What the platform puts in the header for a body: the signature string of
    the body under the secret. *)
Definition signature (secret body : list byte) : string :=
  "sha1=" +:+ hex (hmac_sha1 secret body).

Definition key_bytes (secret : value) : option (list byte) :=
  match secret with
  | VStr s => Some (list_byte_of_string s)
  | VBuf bytes => Some bytes
  | _ => None
  end.

(** The algorithm a header of the form algorithm=digest declares: the text
    before its first equals sign. *)
Fixpoint algorithm_of (declared : string) : string :=
  match declared with
  | EmptyString => EmptyString
  | String c rest =>
      if Ascii.eqb c "=" then EmptyString else String c (algorithm_of rest)
  end.

(** Bit [i] of a byte sequence inverted, counting from the low bit of the
    first byte. *)
Definition flip (k : nat) (b : byte) : byte :=
  byte_of_Z (Z.lxor (byte_to_Z b) (Z.shiftl 1 (Z.of_nat k))).

Fixpoint flip_bit (i : nat) (bs : list byte) : list byte :=
  match bs with
  | [] => []
  | b :: rest =>
      if (i <? 8)%nat then flip i b :: rest else b :: flip_bit (i - 8) rest
  end.

(** The inverse of [hex] on its image. *)
Definition unhex_digit (c : ascii) : option Z :=
  let n := Z.of_nat (nat_of_ascii c) in
  if (48 <=? n) && (n <=? 57) then Some (n - 48)
  else if (97 <=? n) && (n <=? 102) then Some (n - 87)
  else None.

Fixpoint unhex (s : string) : option (list byte) :=
  match s with
  | EmptyString => Some []
  | String hi (String lo rest) =>
      match unhex_digit hi, unhex_digit lo, unhex rest with
      | Some h, Some l, Some bs => Some (byte_of_Z (16 * h + l) :: bs)
      | _, _, _ => None
      end
  | String _ EmptyString => None
  end.

Definition request_with (declared : option string) : Request :=
  {| headers := match declared with
                | Some s => {[ "x-hub-signature" := s ]}
                | None => ∅
                end |}.

(** A string in which a capital letter A to Z occurs. *)
Definition is_upper (c : ascii) : bool :=
  let n := nat_of_ascii c in ((65 <=? n) && (n <=? 90))%nat.

Fixpoint has_upper (s : string) : bool :=
  match s with
  | EmptyString => false
  | String c rest => is_upper c || has_upper rest
  end.

(** [new ValidateSignature(secret).validate(request, response, buffer)], with
    the log it leaves. *)
Definition construct_and_validate (globals : gmap string value)
  (secret : value) (request : Request) (response : value)
  (buffer : list byte) (entries : list log_entry)
  : completion unit * list log_entry :=
  match constructor secret with
  | Throw e => (Throw e, entries)
  | Normal self =>
      let '(r, w) := validate globals request response buffer
                              (World self entries) in
      (r, log w)
  end.

End ValidateSignature.

(** ** The platform client: the request path and the messenger profile *)

Module Client.

(** The result of [JSON.parse] on a response body.  An object lists its
    properties, the first entry of a key being the property. *)
Inductive json : Type :=
| JNull
| JBool (b : bool)
| JNum (text : string)
| JStr (s : string)
| JArr (elems : list json)
| JObj (props : list (string * json)).

Fixpoint of_json (j : json) : value :=
  match j with
  | JNull => VNull
  | JBool b => VBool b
  | JNum text => VNum text
  | JStr s => VStr s
  | JArr elems => VArr (map of_json elems)
  | JObj props => VObj (map (fun kv => (fst kv, of_json (snd kv))) props)
  end.

(** The property of a parsed object under a key. *)
Fixpoint lookup_field (props : list (string * json)) (key : string)
  : option json :=
  match props with
  | [] => None
  | (k, j) :: rest => if String.eqb k key then Some j else lookup_field rest key
  end.

Definition field (j : json) (key : string) : option json :=
  match j with
  | JObj props => lookup_field props key
  | _ => None
  end.

(** A promise, by the way it settles; a chain of reactions runs against the
    log and yields the settlement of the last promise of the chain. *)
Inductive promise (A : Type) : Type :=
| Fulfilled (a : A)
| Rejected (e : value).

Arguments Fulfilled {A} a.
Arguments Rejected {A} e.

Definition P (T A : Type) : Type := world T -> promise A * world T.

(** [p.then(onFulfilled)]: a reaction that returns [q] resolves the new
    promise with [q], one that throws rejects it. *)
Definition then_ {T A B : Type} (p : P T A) (onFulfilled : A -> M T (promise B))
  : P T B :=
  fun w =>
    match p w with
    | (Fulfilled a, w') =>
        match onFulfilled a w' with
        | (Normal q, w'') => (q, w'')
        | (Throw e, w'') => (Rejected e, w'')
        end
    | (Rejected e, w') => (Rejected e, w')
    end.

(** [p.catch(onRejected)]. *)
Definition catch_ {T A : Type} (p : P T A) (onRejected : value -> M T (promise A))
  : P T A :=
  fun w =>
    match p w with
    | (Fulfilled a, w') => (Fulfilled a, w')
    | (Rejected e, w') =>
        match onRejected e w' with
        | (Normal q, w'') => (q, w'')
        | (Throw e', w'') => (Rejected e', w'')
        end
    end.

(** What [fetch] hands back: a response, of which the source only calls
    [json()]. *)
Record Response := { json_body : promise json }.

Record FetchOptions := {
  fo_method : string;
  fo_headers : list (string * string);
  fo_body : value;
  fo_agent : option string
}.

(** [proxyAgent] is [null] or the agent built for a proxy address;
    [messenger_profile] is absent until it is first assigned. *)
Record Client := {
  baseURL : string;
  pageAccessToken : value;
  proxyAgent : option string;
  messenger_profile : option value
}.

Definition with_messenger_profile (self : Client) (object : value) : Client :=
  {| baseURL := baseURL self;
     pageAccessToken := pageAccessToken self;
     proxyAgent := proxyAgent self;
     messenger_profile := Some object |}.

(** Two states of a client that agree on every field but
    [messenger_profile]. *)
Definition same_connection (c c' : Client) : Prop :=
  baseURL c = baseURL c'
  /\ pageAccessToken c = pageAccessToken c'
  /\ proxyAgent c = proxyAgent c'.

(** The argument of the profile operations: a plain value, or an instance of
    a class of the library, given by the name of its class and by what its
    [toObject()] returns when the class has that method. *)
Inductive argument : Type :=
| Data (v : value)
| Instance (class_name : string) (toObject : option value).

(** The own keys of strings and arrays: [length] and the indices; a buffer
    has the indices only. *)
Fixpoint parse_digits (acc : nat) (s : string) : option nat :=
  match s with
  | EmptyString => Some acc
  | String c rest =>
      let n := nat_of_ascii c in
      if ((48 <=? n) && (n <=? 57))%nat
      then parse_digits (10 * acc + (n - 48)) rest
      else None
  end.

Definition parse_index (key : string) : option nat :=
  match key with
  | EmptyString => None
  | String c rest =>
      if (Ascii.eqb c "0" && negb (String.eqb rest EmptyString))%bool then None
      else parse_digits 0 key
  end.

Definition indexed_own (key : string) (n : nat) : bool :=
  String.eqb key "length"
  || match parse_index key with
     | Some i => (i <? n)%nat
     | None => false
     end.

(** [item.hasOwnProperty(key)]: the member is looked up on the value first,
    where an own property of that name hides the inherited function. *)
Definition hasOwnProperty (item : value) (key : string) : completion bool :=
  match item with
  | VUndefined =>
      Throw (TypeError "Cannot read property 'hasOwnProperty' of undefined")
  | VNull => Throw (TypeError "Cannot read property 'hasOwnProperty' of null")
  | VObj props =>
      if has_own props "hasOwnProperty"
      then Throw (TypeError "item.hasOwnProperty is not a function")
      else Normal (has_own props key)
  | VArr elems => Normal (indexed_own key (length elems))
  | VStr s => Normal (indexed_own key (length (utf16_units s)))
  | VBuf bytes =>
      Normal (match parse_index key with
              | Some i => (i <? length bytes)%nat
              | None => false
              end)
  | VErr _ _ => Normal (String.eqb key "message" || String.eqb key "stack")
  | VLogger => Normal (String.eqb key "debug" || String.eqb key "error")
  | VBool _ | VNum _ => Normal false
  end.

(** [profile.constructor.name]. *)
Definition get_name (c : value) : completion value :=
  match c with
  | VErr name _ => Normal (VStr name)
  | _ => get_data_property c "name"
  end.

Definition constructor_name (profile : argument) : completion value :=
  match profile with
  | Instance class_name _ => Normal (VStr class_name)
  | Data v =>
      match v with
      | VUndefined =>
          Throw (TypeError "Cannot read property 'constructor' of undefined")
      | VNull => Throw (TypeError "Cannot read property 'constructor' of null")
      | VBool _ => Normal (VStr "Boolean")
      | VNum _ => Normal (VStr "Number")
      | VStr _ => Normal (VStr "String")
      | VBuf _ => Normal (VStr "Buffer")
      | VArr _ => Normal (VStr "Array")
      | VErr name _ => Normal (VStr name)
      | VLogger => Normal (VStr "Object")
      | VObj props =>
          match own_property props "constructor" with
          | Some c => get_name c
          | None => Normal (VStr "Object")
          end
      end
  end.

(** [profile.toObject()]. *)
Definition call_toObject (profile : argument) : completion value :=
  match profile with
  | Instance _ (Some object) => Normal object
  | _ => Throw (TypeError "profile.toObject is not a function")
  end.

Fixpoint distinct (keys : list string) : list string :=
  match keys with
  | [] => []
  | k :: rest =>
      k :: filter (fun k' => negb (String.eqb k k')) (distinct rest)
  end.

(** The order of the own keys of an object: the array indices first, by
    value, then the other keys as they were created. *)
Fixpoint parse_digits_N (acc : N) (s : string) : option N :=
  match s with
  | EmptyString => Some acc
  | String c rest =>
      let n := N_of_ascii c in
      if ((48 <=? n) && (n <=? 57))%N
      then parse_digits_N (10 * acc + (n - 48))%N rest
      else None
  end.

Definition array_index (key : string) : option N :=
  match key with
  | EmptyString => None
  | String c rest =>
      if (Ascii.eqb c "0" && negb (String.eqb rest EmptyString))%bool then None
      else match parse_digits_N 0%N key with
           | Some n => if (n <? 4294967295)%N then Some n else None
           | None => None
           end
  end.

Fixpoint insert_index (i : N) (key : string) (sorted : list (N * string))
  : list (N * string) :=
  match sorted with
  | [] => [(i, key)]
  | (j, k) :: rest =>
      if (i <? j)%N then (i, key) :: sorted
      else (j, k) :: insert_index i key rest
  end.

Fixpoint indices_of (keys : list string) : list (N * string) :=
  match keys with
  | [] => []
  | key :: rest =>
      match array_index key with
      | Some i => insert_index i key (indices_of rest)
      | None => indices_of rest
      end
  end.

Definition own_keys (props : list (string * value)) : list string :=
  let keys := distinct (map fst props) in
  map snd (indices_of keys)
    ++ List.filter (fun key => match array_index key with
                          | Some _ => false
                          | None => true
                          end) keys.

(** [Object.keys(v)]. *)
Definition Object_keys (v : value) : completion (list string) :=
  match v with
  | VUndefined | VNull =>
      Throw (TypeError "Cannot convert undefined or null to object")
  | VObj props => Normal (own_keys props)
  | VArr elems => Normal (map pretty (seq 0 (length elems)))
  | VStr s => Normal (map pretty (seq 0 (length (utf16_units s))))
  | VBuf bytes => Normal (map pretty (seq 0 (length bytes)))
  | VLogger => Normal ["debug"; "error"]
  | VBool _ | VNum _ | VErr _ _ => Normal []
  end.

Section Operations.

(** What the file takes from elsewhere: [fetch] of node-fetch, that is the
    remote end; [validate.oneOf] of util/validate, which returns or throws;
    the class [MessengerProfile] of the library, by its name and its valid
    properties; and [JSON.stringify]. *)
Variable fetch : string -> FetchOptions -> promise Response.
Variable oneOf : value -> list value -> string -> string -> completion unit.
Variable MessengerProfile_name : string.
Variable validProperties : list value.
Variable JSON_stringify : value -> value.

(** [log.error] of util/logger, imported by the file, writes to the log. *)
Definition log_error (v : value) : M Client unit := write_log "error" v.

(** A destructured option with a default: the default stands in for a
    missing or [undefined] property. *)
Definition or_default (d : value) (o : option value) : value :=
  match o with
  | None | Some VUndefined => d
  | Some v => v
  end.

Definition fetch_options (self : Client) (body : option value)
  (method : option string) : FetchOptions :=
  {| fo_method := default "POST" method;
     fo_headers := [("Content-Type", "application/json")];
     fo_body := or_default VNull body;
     fo_agent := proxyAgent self |}.

(** The reaction to the parsed body:
    [item => item.hasOwnProperty('error') ? Promise.reject(item.error)
                                          : Promise.resolve(item)]. *)
Definition reject_error_field (parsed : json) : M Client (promise value) :=
  let item := of_json parsed in
  do own <- lift (hasOwnProperty item "error");
  if own : bool
  then do e <- lift (get_data_property item "error");
       ret (Rejected e)
  else ret (Fulfilled item).

(** The reaction to a rejection:
    [error => { log.error(error); throw new Error(error.message); }]. *)
Definition log_and_wrap (error : value) : M Client (promise value) :=
  run log_error error;
  do m <- lift (get_message error);
  do e <- lift (new_Error m);
  throw e.

Definition proxyFetchFacebook (url : string) (body : option value)
  (method : option string) : P Client value :=
  fun w =>
    let fetchOptions := fetch_options (this w) body method in
    catch_
      (then_
         (then_ (fun w0 => (fetch url fetchOptions, w0))
                (fun resp => ret (json_body resp)))
         reject_error_field)
      log_and_wrap
      w.

(** The reaction every operation attaches last:
    [error => { log.error(error); return Promise.reject(error); }]. *)
Definition log_and_reject (error : value) : M Client (promise value) :=
  run log_error error;
  ret (Rejected error).

(** An operation returns its promise; the promise is given as settled, with
    the log as its reactions leave it. *)
Definition settle {A : Type} (p : P Client A) : M Client (promise A) :=
  fun w => let '(r, w') := p w in (Normal r, w').

Definition read_messenger_profile (self : Client) : value :=
  default VUndefined (messenger_profile self).

(** [this.messenger_profile = object]. *)
Definition assign_messenger_profile (object : value) : M Client unit :=
  do self <- get_this;
  set_this (with_messenger_profile self object).

Fixpoint for_of (keys : list string) (body : string -> M Client unit)
  : M Client unit :=
  match keys with
  | [] => ret tt
  | key :: rest => run body key; for_of rest body
  end.

Definition validateMessengerProfile (profile : argument) (fields : bool)
  : M Client unit :=
  do name <- lift (constructor_name profile);
  run lift (oneOf name [VStr MessengerProfile_name] "Messenger Profile"
                  "Client.validateMessengerProfile");
  do object <- lift (call_toObject profile);
  run assign_messenger_profile object;
  do self <- get_this;
  do keys <- lift (Object_keys (read_messenger_profile self));
  for_of keys (fun key =>
    lift (oneOf (VStr key)
                (if fields then [VStr "fields"] else validProperties)
                "messenger_profile" "Client.validateMessengerProfile")).

Definition setMessengerProfile (profile : argument)
  : M Client (promise value) :=
  run validateMessengerProfile profile false;
  do self <- get_this;
  do token <- lift (to_string (pageAccessToken self));
  let url := baseURL self +:+ "/me/messenger_profile?access_token=" +:+ token in
  let body := JSON_stringify (read_messenger_profile self) in
  settle (catch_ (proxyFetchFacebook url (Some body) None) log_and_reject).

Definition getMessengerProfile (profile : argument)
  : M Client (promise value) :=
  run validateMessengerProfile profile true;
  do self <- get_this;
  do fields <- lift (get_data_property (read_messenger_profile self) "fields");
  do fields <- lift (to_string fields);
  do token <- lift (to_string (pageAccessToken self));
  let url := baseURL self +:+ "/me/messenger_profile?fields=" +:+ fields
               +:+ "&access_token=" +:+ token in
  settle (catch_ (then_ (proxyFetchFacebook url None (Some "GET"))
                        (fun botSettings => ret (Fulfilled botSettings)))
                 log_and_reject).

Definition deleteMessengerProfile (profile : argument)
  : M Client (promise value) :=
  run validateMessengerProfile profile true;
  do self <- get_this;
  do token <- lift (to_string (pageAccessToken self));
  let url := baseURL self +:+ "/me/messenger_profile?access_token=" +:+ token in
  let body := JSON_stringify (read_messenger_profile self) in
  settle (catch_ (proxyFetchFacebook url (Some body) (Some "DELETE"))
                 log_and_reject).

End Operations.

(** What [new Error(error.message)] comes to in the reaction to a rejection:
    the new error, or what evaluating it throws. *)
Definition wrapped (error : value) : value :=
  match cbind (get_message error) new_Error with
  | Normal e => e
  | Throw e => e
  end.

(** How the promise settles to which [proxyFetchFacebook] attaches its
    [catch]: what [fetch] gives, through [resp.json()] and the reaction to
    the parsed body. *)
Definition before_catch (fetched : promise Response) : promise value :=
  match fetched with
  | Rejected e => Rejected e
  | Fulfilled resp =>
      match json_body resp with
      | Rejected e => Rejected e
      | Fulfilled parsed =>
          let item := of_json parsed in
          match hasOwnProperty item "error" with
          | Throw e => Rejected e
          | Normal true =>
              match get_data_property item "error" with
              | Normal e => Rejected e
              | Throw e => Rejected e
              end
          | Normal false => Fulfilled item
          end
      end
  end.

(** *** The constructor, the proxy and the other requests *)

Definition facebookMessengerAPIURL : string := "https://graph.facebook.com".

Definition userProfileFields : list string :=
  ["first_name"; "last_name"; "profile_pic"; "locale"; "timezone"; "gender";
   "is_payment_enabled"].

Definition validPlatformAPIVersions : list string := ["v2.6"; "v2.7"; "v2.8"].

Definition with_proxyAgent (self : Client) (agent : option string) : Client :=
  {| baseURL := baseURL self;
     pageAccessToken := pageAccessToken self;
     proxyAgent := agent;
     messenger_profile := messenger_profile self |}.

(** The condition of [typing ? 'typing_on' : 'typing_off']. *)
Definition truthy (v : value) : bool :=
  match v with
  | VUndefined | VNull => false
  | VBool b => b
  | VNum text => negb (String.eqb text "0" || String.eqb text "NaN")
  | VStr s => negb (String.eqb s EmptyString)
  | _ => true
  end.

(** A message handed to [upload] or [sendMessage]: a plain value, which has
    no methods, or an object of a class of the library, given by the name of
    its class, by what [getMessage()] returns, and by what
    [forUpload().getMessage()] returns when the class has [forUpload]. *)
Inductive message : Type :=
| PlainValue (v : value)
| MessageObject (class_name : string) (getMessage : value)
    (forUpload : option value).

Definition as_argument (m : message) : argument :=
  match m with
  | PlainValue v => Data v
  | MessageObject class_name _ _ => Instance class_name None
  end.

(** [message.getMessage()]. *)
Definition call_getMessage (m : message) : completion value :=
  match m with
  | MessageObject _ body _ => Normal body
  | PlainValue VUndefined =>
      Throw (TypeError "Cannot read property 'getMessage' of undefined")
  | PlainValue VNull =>
      Throw (TypeError "Cannot read property 'getMessage' of null")
  | PlainValue _ => Throw (TypeError "message.getMessage is not a function")
  end.

(** [message.forUpload().getMessage()]. *)
Definition call_forUpload (m : message) : completion value :=
  match m with
  | MessageObject _ _ (Some body) => Normal body
  | PlainValue VUndefined =>
      Throw (TypeError "Cannot read property 'forUpload' of undefined")
  | PlainValue VNull =>
      Throw (TypeError "Cannot read property 'forUpload' of null")
  | _ => Throw (TypeError "message.forUpload is not a function")
  end.

(** The own enumerable properties that [{ ...v }] copies, in the order of
    the keys; of a string, its units.  Members that are functions, which
    [JSON.stringify] leaves out of the envelope the copy goes into, are not
    listed. *)
Definition spread (v : value) : list (string * value) :=
  match v with
  | VObj props =>
      map (fun key => (key, default VUndefined (own_property props key)))
          (own_keys props)
  | VArr elems => combine (map pretty (seq 0 (length elems))) elems
  | VStr s =>
      let units := map VStr (utf16_units s) in
      combine (map pretty (seq 0 (length units))) units
  | VBuf bytes =>
      combine (map pretty (seq 0 (length bytes)))
              (map (fun b => VNum (pretty (Byte.to_N b))) bytes)
  | _ => []
  end.

(** What [for (const x of v)] goes through. *)
Definition iterate (name : string) (v : value) : completion (list value) :=
  match v with
  | VArr elems => Normal elems
  | VStr s => Normal (map VStr (code_points s))
  | VBuf bytes => Normal (map (fun b => VNum (pretty (Byte.to_N b))) bytes)
  | _ => Throw (TypeError (name +:+ " is not iterable"))
  end.

Section Requests.

(** What the file takes from elsewhere, beside [fetch] and [JSON.stringify]:
    the checks of util/validate, each of which returns or throws, but for
    [validate.null], which answers; and the names of the attachment
    classes of the library. *)
Variable fetch : string -> FetchOptions -> promise Response.
Variable JSON_stringify : value -> value.
Variable oneOf : value -> list value -> string -> string -> completion unit.
Variable notNull : value -> string -> string -> completion unit.
Variable isArray : value -> string -> string -> completion unit.
Variable required : value -> list string -> string -> completion unit.
Variable validate_null : value -> bool.
Variable ImageAttachment_name : string.
Variable AudioAttachment_name : string.
Variable VideoAttachment_name : string.
Variable FileAttachment_name : string.

Definition setProxy (proxy : value) : M Client unit :=
  if validate_null proxy then
    do self <- get_this;
    set_this (with_proxyAgent self None)
  else
    run lift (required proxy ["hostname"; "port"] "Client.setProxy");
    do hostname <- lift (get_data_property proxy "hostname");
    do hostname <- lift (to_string hostname);
    do port <- lift (get_data_property proxy "port");
    do port <- lift (to_string port);
    do self <- get_this;
    set_this (with_proxyAgent self (Some (hostname +:+ ":" +:+ port))).

(** [new Client(pageAccessToken, proxy = null, platformAPIVersion = 'v2.8')]. *)
Definition new_Client (token : value) (proxy : option value)
  (platformAPIVersion : option value) : completion Client :=
  let proxy := or_default VNull proxy in
  let platformAPIVersion := or_default (VStr "v2.8") platformAPIVersion in
  cbind (oneOf platformAPIVersion (map VStr validPlatformAPIVersions)
               "API Version" "Client.constructor") (fun _ =>
  cbind (notNull token "PAGE_ACCESS_TOKEN" "Client.constructor") (fun _ =>
  cbind (to_string platformAPIVersion) (fun version =>
  let self := {| baseURL := facebookMessengerAPIURL +:+ "/" +:+ version;
                 pageAccessToken := token;
                 proxyAgent := None;
                 messenger_profile := None |} in
  match setProxy proxy (World self []) with
  | (Normal _, w) => Normal (this w)
  | (Throw e, _) => Throw e
  end))).

Definition upload (m : message) : M Client (promise value) :=
  do name <- lift (constructor_name (as_argument m));
  run lift (oneOf name
                  [VStr ImageAttachment_name; VStr AudioAttachment_name;
                   VStr VideoAttachment_name; VStr FileAttachment_name]
                  "attachment.type" "Client.upload");
  do messageBody <- lift (call_forUpload m);
  let facebookEnvelope := VObj [("message", VObj (spread messageBody))] in
  do self <- get_this;
  do token <- lift (to_string (pageAccessToken self));
  let url := baseURL self +:+ "/me/message_attachments?access_token="
               +:+ token in
  settle (catch_
            (then_ (proxyFetchFacebook fetch url
                      (Some (JSON_stringify facebookEnvelope)) None)
                   (fun resp =>
                      do id <- lift (get_data_property resp "attachment_id");
                      ret (Fulfilled id)))
            log_and_reject).

Definition sendMessage (m : message) (recipientId : value)
  (notificationType : option value) : M Client (promise value) :=
  let notificationType := or_default (VStr "REGULAR") notificationType in
  do messageBody <- lift (call_getMessage m);
  run lift (notNull recipientId "recipient.id" "Client.send");
  run lift (notNull messageBody "message" "Client.send");
  run lift (oneOf notificationType
                  [VStr "REGULAR"; VStr "SILENT_PUSH"; VStr "NO_PUSH"]
                  "notification_type" "Client.send");
  let facebookEnvelope :=
    VObj [("recipient", VObj [("id", recipientId)]);
          ("message", VObj (spread messageBody));
          ("notification_type", notificationType)] in
  do self <- get_this;
  do token <- lift (to_string (pageAccessToken self));
  let url := baseURL self +:+ "/me/messages?access_token=" +:+ token in
  settle (catch_ (proxyFetchFacebook fetch url
                    (Some (JSON_stringify facebookEnvelope)) None)
                 log_and_reject).

Definition send (m : message) (recipientId : value)
  (notificationType : option value) : M Client (promise value) :=
  sendMessage m recipientId (Some (or_default (VStr "REGULAR") notificationType)).

Fixpoint for_of_values (items : list value) (body : value -> M Client unit)
  : M Client unit :=
  match items with
  | [] => ret tt
  | item :: rest => run body item; for_of_values rest body
  end.

Definition getUserProfile (userId : value) (fields : option value)
  : M Client (promise value) :=
  let fields := or_default (VArr (map VStr userProfileFields)) fields in
  run lift (notNull userId "USER_ID" "Client.getProfile");
  run lift (isArray fields "fields" "Client.getProfile");
  do items <- lift (iterate "fields" fields);
  run for_of_values items (fun field =>
        lift (oneOf field (map VStr userProfileFields) "fields"
                    "Client.getProfile"));
  do self <- get_this;
  do user <- lift (to_string userId);
  do list <- lift (to_string fields);
  do token <- lift (to_string (pageAccessToken self));
  let url := baseURL self +:+ "/" +:+ user +:+ "?fields=" +:+ list
               +:+ "&access_token=" +:+ token in
  settle (catch_ (then_ (proxyFetchFacebook fetch url None (Some "GET"))
                        (fun profile => ret (Fulfilled profile)))
                 log_and_reject).

Definition getProfile (userId : value) (fields : option value)
  : M Client (promise value) :=
  getUserProfile userId
    (Some (or_default (VArr (map VStr userProfileFields)) fields)).

Definition sendAction (action recipientId : value) : M Client (promise value) :=
  run lift (notNull recipientId "recipient.id" "Client.senderActions");
  run lift (notNull action "sender_action" "Client.senderActions");
  run lift (oneOf action
                  [VStr "mark_seen"; VStr "typing_on"; VStr "typing_off"]
                  "sender_action.type" "Client.senderActions");
  let facebookEnvelope :=
    VObj [("recipient", VObj [("id", recipientId)]);
          ("sender_action", action)] in
  do self <- get_this;
  do token <- lift (to_string (pageAccessToken self));
  let url := baseURL self +:+ "/me/messages?access_token=" +:+ token in
  settle (catch_ (proxyFetchFacebook fetch url
                    (Some (JSON_stringify facebookEnvelope)) None)
                 log_and_reject).

Definition senderActions (action recipientId : value)
  : M Client (promise value) :=
  sendAction action recipientId.

Definition markSeen (recipientId : value) : M Client (promise value) :=
  sendAction (VStr "mark_seen") recipientId.

Definition typingToggle (typing recipientId : value)
  : M Client (promise value) :=
  sendAction (VStr (if truthy typing then "typing_on" else "typing_off"))
             recipientId.

End Requests.

Section Deprecated.

Variable fetch : string -> FetchOptions -> promise Response.
Variable oneOf : value -> list value -> string -> string -> completion unit.
Variable MessengerProfile_name : string.
Variable validProperties : list value.
Variable JSON_stringify : value -> value.

Definition viewBotSettings (profile : argument) : M Client (promise value) :=
  getMessengerProfile fetch oneOf MessengerProfile_name validProperties profile.

Definition updateBotSettings (profile : argument) : M Client (promise value) :=
  setMessengerProfile fetch oneOf MessengerProfile_name validProperties
                      JSON_stringify profile.

Definition deleteBotSettings (profile : argument) : M Client (promise value) :=
  deleteMessengerProfile fetch oneOf MessengerProfile_name validProperties
                         JSON_stringify profile.

End Deprecated.

End Client.

(** ** Concrete inputs

    The scenario of the specification (secret abc123, body {"test":"true"}),
    a page client, and an instance of what the client takes from elsewhere,
    on which the operations can be run. *)

Module Fixture.

Import ValidateSignature Client.

Definition quote : string := String (ascii_of_nat 34) EmptyString.

Definition secret : string := "abc123".

Definition body : list byte :=
  list_byte_of_string
    ("{" +:+ quote +:+ "test" +:+ quote +:+ ":" +:+ quote +:+ "true" +:+ quote
         +:+ "}").

Definition oracle : string := "sha1=b2b40d50d212156383cff67951dc36b60069ebcc".

Definition verifier : ValidateSignature := {| appSecret := VStr secret |}.

Definition same_string (a b : value) : bool :=
  match a, b with
  | VStr x, VStr y => String.eqb x y
  | _, _ => false
  end.

(** [oneOf] as a membership test that throws for a value outside the list. *)
Definition oneOf (item : value) (items : list value) (name from : string)
  : completion unit :=
  if existsb (same_string item) items then Normal tt
  else Throw (Error (name +:+ " is not valid in " +:+ from)).

Definition MessengerProfile_name : string := "MessengerProfile".

Definition validProperties : list value :=
  [VStr "get_started"; VStr "greeting"; VStr "persistent_menu"].

(** A stand-in: the text of the request body plays no part in what is
    shown on these inputs. *)
Definition JSON_stringify (v : value) : value := VStr "{}".

(** The error body of the platform for a bad access token. *)
Definition oauth_error : json :=
  JObj [("message", JStr "Invalid OAuth access token.");
        ("type", JStr "OAuthException");
        ("code", JNum "190")].

Definition error_reply : json := JObj [("error", oauth_error)].

Definition shadowing_reply : json := JObj [("hasOwnProperty", JNum "1")].

Definition fetch_always (reply : json) (url : string) (options : FetchOptions)
  : promise Response :=
  Fulfilled {| json_body := Fulfilled reply |}.

Definition page : Client.Client :=
  {| baseURL := "https://graph.facebook.com/v2.8";
     pageAccessToken := VStr "PAGE_ACCESS_TOKEN";
     proxyAgent := None;
     messenger_profile := None |}.

Definition profile : argument :=
  Instance "MessengerProfile" (Some (VObj [("fields", VStr "greeting")])).

(** The page client after an earlier profile operation. *)
Definition page_after_earlier_call : Client.Client :=
  with_messenger_profile page (VObj [("fields", VStr "get_started")]).

(** An instance of the other checks of util/validate, as their names
    read, and of the names of the attachment classes. *)
Definition notNull (item : value) (name from : string) : completion unit :=
  match item with
  | VUndefined | VNull => Throw (Error (name +:+ " is required in " +:+ from))
  | _ => Normal tt
  end.

Definition isArray (item : value) (name from : string) : completion unit :=
  match item with
  | VArr _ => Normal tt
  | _ => Throw (Error (name +:+ " must be an array in " +:+ from))
  end.

Definition required (item : value) (keys : list string) (from : string)
  : completion unit :=
  match item with
  | VObj props =>
      if forallb (has_own props) keys then Normal tt
      else Throw (Error ("missing property in " +:+ from))
  | _ => Throw (Error ("missing property in " +:+ from))
  end.

Definition validate_null (item : value) : bool :=
  match item with
  | VUndefined | VNull => true
  | _ => false
  end.

Definition image : message :=
  MessageObject "ImageAttachment"
    (VObj [("attachment", VObj [("type", VStr "image")])])
    (Some (VObj [("attachment", VObj [("type", VStr "image")])])).

Definition text : message :=
  MessageObject "Text" (VObj [("text", VStr "hello")]) None.

Definition fetch_fails (cause : value) (url : string) (options : FetchOptions)
  : promise Response :=
  Rejected cause.

End Fixture.

Import ValidateSignature Client.

(** ** What the log shows of an operation *)

(** A computation that writes nothing to the log. *)
Definition keeps_log {R : Type}
  (c : world Client.Client -> R * world Client.Client) : Prop :=
  forall w : world Client.Client, log (snd (c w)) = log w.

(** An operation of the client that writes to the log only when its promise
    is rejected, and then two entries: what the promise of a request settled
    with before the [catch] of [proxyFetchFacebook], and the error the
    operation's promise is rejected with, which is what that [catch] made of
    it. *)
Definition logs_rejection_twice
  (fetch : string -> FetchOptions -> promise Response)
  (c : M Client.Client (promise value)) : Prop :=
  forall w : world Client.Client,
    match fst (c w) with
    | Normal (Rejected e) =>
        exists (url : string) (body : option value) (method : option string)
               (cause : value),
          before_catch
            (fetch url (fetch_options (this (snd (c w))) body method))
          = Rejected cause
          /\ e = wrapped cause
          /\ log (snd (c w))
             = log w ++ [LogEntry "error" cause; LogEntry "error" e]
    | Normal (Fulfilled _) | Throw _ => log (snd (c w)) = log w
    end.

(** * Properties *)

(** ** The hex encoding and the digest *)

Lemma unhex_digit_hi (b : byte) : unhex_digit (hex_digit (byte_to_Z b / 16)) = Some (byte_to_Z b / 16).
Proof. destruct b; reflexivity. Qed.

Lemma unhex_digit_lo (b : byte) : unhex_digit (hex_digit (byte_to_Z b mod 16)) = Some (byte_to_Z b mod 16).
Proof. destruct b; reflexivity. Qed.

Lemma byte_of_to_Z (b : byte) : byte_of_Z (16 * (byte_to_Z b / 16) + byte_to_Z b mod 16) = b.
Proof. destruct b; reflexivity. Qed.

Lemma unhex_hex (bs : list byte) : unhex (hex bs) = Some bs.
Proof.
  induction bs as [|b rest IH]; [reflexivity|].
  cbn [hex unhex].
  rewrite unhex_digit_hi, unhex_digit_lo, IH, byte_of_to_Z.
  reflexivity.
Qed.

Lemma hex_injective (a b : list byte) : hex a = hex b -> a = b.
Proof.
  intros H.
  assert (E : Some a = Some b) by (rewrite <- !unhex_hex, H; reflexivity).
  congruence.
Qed.

Lemma flip_changes (k : nat) (b : byte) : (k < 8)%nat -> flip k b <> b.
Proof.
  intros Hk.
  do 8 (destruct k as [|k]; [destruct b; vm_compute; discriminate|]).
  lia.
Qed.

Lemma flip_bit_changes (bs : list byte) :
  forall i : nat, (i < 8 * length bs)%nat -> flip_bit i bs <> bs.
Proof.
  induction bs as [|b rest IH]; intros i Hi; cbn [length] in Hi; [lia|].
  cbn [flip_bit].
  destruct (i <? 8)%nat eqn:E.
  - apply Nat.ltb_lt in E. intros H. injection H as H.
    exact (flip_changes i b E H).
  - apply Nat.ltb_ge in E. intros H. injection H as H.
    apply (IH (i - 8)%nat); [lia|exact H].
Qed.

Lemma sha1_length (msg : list byte) : length (sha1 msg) = 20%nat.
Proof. unfold sha1, sha1_Z. rewrite length_map, !length_app. reflexivity. Qed.

Lemma hmac_sha1_length (key msg : list byte) : length (hmac_sha1 key msg) = 20%nat.
Proof. apply sha1_length. Qed.

(** The digests of FIPS 180 and RFC 2202, and the one of the scenario of the
    specification. *)
Example sha1_abc :
  hex (sha1 (list_byte_of_string "abc"))
  = "a9993e364706816aba3e25717850c26c9cd0d89d".
Proof. vm_compute. reflexivity. Qed.

Example sha1_empty : hex (sha1 []) = "da39a3ee5e6b4b0d3255bfef95601890afd80709".
Proof. vm_compute. reflexivity. Qed.

Example sha1_two_blocks :
  hex (sha1 (list_byte_of_string
               "abcdbcdecdefdefgefghfghighijhijkijkljklmklmnlmnomnopnopq"))
  = "84983e441c3bd26ebaae4aa1f95129e5e54670f1".
Proof. vm_compute. reflexivity. Qed.

Example hmac_sha1_rfc2202_2 :
  hex (hmac_sha1 (list_byte_of_string "Jefe")
                 (list_byte_of_string "what do ya want for nothing?"))
  = "effcdf6ae5eb2fa2d27416d5f184df9c259a7c79".
Proof. vm_compute. reflexivity. Qed.

Example hmac_sha1_rfc2202_6 :
  hex (hmac_sha1 (repeat xaa 80)
                 (list_byte_of_string
                    "Test Using Larger Than Block-Size Key - Hash Key First"))
  = "aa4ae5e15272d00e95705637ce8a3b55ed402112".
Proof. vm_compute. reflexivity. Qed.

Example scenario_signature :
  signature (list_byte_of_string Fixture.secret) Fixture.body = Fixture.oracle.
Proof. vm_compute. reflexivity. Qed.

(** ** [ValidateSignature.validate] *)

Lemma createHmac_key (secret : value) (key : list byte) :
  key_bytes secret = Some key ->
  createHmac "sha1" secret = Normal {| hmac_key := key; hmac_data := [] |}.
Proof. destruct secret; cbn; intros H; inversion H; reflexivity. Qed.

Lemma createHmac_not_key (secret : value) :
  key_bytes secret = None ->
  createHmac "sha1" secret = Throw (TypeError "Key must be a buffer").
Proof. destruct secret; cbn; intros H; solve [discriminate H | reflexivity]. Qed.

Lemma computed_signature (key buffer : list byte) :
  "sha1=" +:+ digest_hex (update {| hmac_key := key; hmac_data := [] |} buffer)
  = signature key buffer.
Proof. reflexivity. Qed.

Lemma refuses_iff (expected : option string) (key buffer : list byte) :
  falsy expected || strict_neq expected (signature key buffer) = false
  <-> expected = Some (signature key buffer).
Proof.
  destruct expected as [s|]; cbn [falsy strict_neq]; split; intros H.
  - apply orb_false_iff in H as [_ H].
    apply negb_false_iff, String.eqb_eq in H. congruence.
  - injection H as ->. rewrite String.eqb_refl. reflexivity.
  - discriminate H.
  - discriminate H.
Qed.

(** The whole of [validate] for a secret that is a string or a buffer. *)
Lemma validate_cases (globals : gmap string value) (request : Request)
  (response : value) (buffer : list byte) (w : world ValidateSignature.ValidateSignature)
  (key : list byte) :
  key_bytes (appSecret (this w)) = Some key ->
  validate globals request response buffer w =
    if falsy (get request "X-Hub-Signature")
       || strict_neq (get request "X-Hub-Signature") (signature key buffer)
    then (Throw InvalidSignatureError, w)
    else match globals !! "log" with
         | Some logger =>
             call_log_method "log" "debug" logger (VStr "Valid signature!") w
         | None => (Throw (ReferenceError "log is not defined"), w)
         end.
Proof.
  intros Hkey.
  unfold validate, bind, lift, get_this.
  rewrite (createHmac_key _ _ Hkey), computed_signature.
  destruct (falsy _ || strict_neq _ _); [reflexivity|].
  unfold global_reference, bind.
  destruct (globals !! "log"); reflexivity.
Qed.

Lemma validate_mismatch (globals : gmap string value) (request : Request)
  (response : value) (buffer : list byte) (w : world ValidateSignature.ValidateSignature)
  (key : list byte) :
  key_bytes (appSecret (this w)) = Some key ->
  get request "X-Hub-Signature" <> Some (signature key buffer) ->
  validate globals request response buffer w = (Throw InvalidSignatureError, w).
Proof.
  intros Hkey Hne.
  rewrite (validate_cases _ _ _ _ _ _ Hkey).
  destruct (falsy _ || strict_neq _ _) eqn:E; [reflexivity|].
  apply refuses_iff in E. contradiction.
Qed.

Lemma validate_match (globals : gmap string value) (request : Request)
  (response : value) (buffer : list byte) (w : world ValidateSignature.ValidateSignature)
  (key : list byte) :
  key_bytes (appSecret (this w)) = Some key ->
  get request "X-Hub-Signature" = Some (signature key buffer) ->
  validate globals request response buffer w =
    match globals !! "log" with
    | Some logger =>
        call_log_method "log" "debug" logger (VStr "Valid signature!") w
    | None => (Throw (ReferenceError "log is not defined"), w)
    end.
Proof.
  intros Hkey He.
  rewrite (validate_cases _ _ _ _ _ _ Hkey).
  apply refuses_iff in He. rewrite He. reflexivity.
Qed.

(** With no global [log], a request that carries the right signature ends in
    a ReferenceError. *)
Lemma validate_match_without_log (globals : gmap string value)
  (request : Request) (response : value) (buffer : list byte)
  (w : world ValidateSignature.ValidateSignature) (key : list byte) :
  globals !! "log" = None ->
  key_bytes (appSecret (this w)) = Some key ->
  get request "X-Hub-Signature" = Some (signature key buffer) ->
  validate globals request response buffer w
  = (Throw (ReferenceError "log is not defined"), w).
Proof.
  intros Hlog Hkey He.
  rewrite (validate_match _ _ _ _ _ _ Hkey He), Hlog. reflexivity.
Qed.

(** With a logger under the global name [log], it returns. *)
Lemma validate_match_with_logger (globals : gmap string value)
  (request : Request) (response : value) (buffer : list byte)
  (w : world ValidateSignature.ValidateSignature) (key : list byte) :
  globals !! "log" = Some VLogger ->
  key_bytes (appSecret (this w)) = Some key ->
  get request "X-Hub-Signature" = Some (signature key buffer) ->
  validate globals request response buffer w
  = (Normal tt,
     World (this w) (log w ++ [LogEntry "debug" (VStr "Valid signature!")])).
Proof.
  intros Hlog Hkey He.
  rewrite (validate_match _ _ _ _ _ _ Hkey He), Hlog. reflexivity.
Qed.

(** No scope of the file binds [log]. *)
Lemma log_is_free : ~ In "log" bound_identifiers.
Proof. cbn. intros H. repeat destruct H as [H|H]; try discriminate H. exact H. Qed.

(** The receiver is the same after [validate], whatever the outcome. *)
Lemma validate_this (globals : gmap string value) (request : Request)
  (response : value) (buffer : list byte) (w : world ValidateSignature.ValidateSignature) :
  this (snd (validate globals request response buffer w)) = this w.
Proof.
  destruct (key_bytes (appSecret (this w))) as [key|] eqn:Hkey.
  - rewrite (validate_cases _ _ _ _ _ _ Hkey).
    destruct (falsy _ || strict_neq _ _); [reflexivity|].
    destruct (globals !! "log") as [logger|]; [|reflexivity].
    destruct logger; reflexivity.
  - unfold validate, bind, lift, get_this.
    rewrite (createHmac_not_key _ Hkey). reflexivity.
Qed.

(** The outcome depends on the receiver and the arguments, not on the log. *)
Lemma validate_outcome (globals : gmap string value) (request : Request)
  (response : value) (buffer : list byte) (w w' : world ValidateSignature.ValidateSignature) :
  this w' = this w ->
  fst (validate globals request response buffer w')
  = fst (validate globals request response buffer w).
Proof.
  intros Hthis.
  destruct (key_bytes (appSecret (this w))) as [key|] eqn:Hkey.
  - rewrite (validate_cases _ _ _ _ w key Hkey).
    rewrite <- Hthis in Hkey.
    rewrite (validate_cases _ _ _ _ w' key Hkey).
    destruct (falsy _ || strict_neq _ _); [reflexivity|].
    destruct (globals !! "log") as [logger|]; [|reflexivity].
    destruct logger; reflexivity.
  - unfold validate, bind, lift, get_this.
    rewrite Hthis, (createHmac_not_key _ Hkey). reflexivity.
Qed.

Lemma prefix_injective (x y : string) : "sha1=" +:+ x = "sha1=" +:+ y -> x = y.
Proof.
  intros H. cbv beta iota delta [String.append] in H.
  injection H as H. exact H.
Qed.

Lemma signature_injective (key buffer digest : list byte) :
  "sha1=" +:+ hex digest = signature key buffer ->
  digest = hmac_sha1 key buffer.
Proof.
  unfold signature. intros H.
  apply hex_injective, prefix_injective, H.
Qed.

(** A declared signature that carries another digest is refused: the digest
    of another body whenever it differs, and the digest with one bit
    inverted always. *)
Lemma validate_rejects_other_digest (globals : gmap string value)
  (request : Request) (response : value) (buffer : list byte)
  (w : world ValidateSignature.ValidateSignature) (key digest : list byte) :
  key_bytes (appSecret (this w)) = Some key ->
  digest <> hmac_sha1 key buffer ->
  get request "X-Hub-Signature" = Some ("sha1=" +:+ hex digest) ->
  validate globals request response buffer w = (Throw InvalidSignatureError, w).
Proof.
  intros Hkey Hd He.
  apply (validate_mismatch _ _ _ _ _ key Hkey).
  rewrite He. intros H.
  apply Hd, signature_injective. congruence.
Qed.

Lemma validate_rejects_flipped_digest (globals : gmap string value)
  (request : Request) (response : value) (buffer : list byte)
  (w : world ValidateSignature.ValidateSignature) (key : list byte) (i : nat) :
  key_bytes (appSecret (this w)) = Some key ->
  (i < 160)%nat ->
  get request "X-Hub-Signature"
  = Some ("sha1=" +:+ hex (flip_bit i (hmac_sha1 key buffer))) ->
  validate globals request response buffer w = (Throw InvalidSignatureError, w).
Proof.
  intros Hkey Hi He.
  apply (validate_rejects_other_digest _ _ _ _ _ key
           (flip_bit i (hmac_sha1 key buffer)) Hkey); [|exact He].
  apply flip_bit_changes. rewrite hmac_sha1_length. lia.
Qed.

(** Whatever the global object holds, a call that returns normally had the
    canonical string in its header. *)
Lemma validate_accepts_only_canonical (globals : gmap string value)
  (request : Request) (response : value) (buffer : list byte)
  (w : world ValidateSignature.ValidateSignature) (key : list byte) :
  key_bytes (appSecret (this w)) = Some key ->
  fst (validate globals request response buffer w) = Normal tt ->
  get request "X-Hub-Signature" = Some (signature key buffer).
Proof.
  intros Hkey Hok.
  destruct (decide (get request "X-Hub-Signature" = Some (signature key buffer)))
    as [E|E]; [exact E|].
  rewrite (validate_mismatch _ _ _ _ _ key Hkey E) in Hok. discriminate Hok.
Qed.

(** With no global [log], no call returns normally. *)
Lemma validate_never_returns (globals : gmap string value)
  (request : Request) (response : value) (buffer : list byte)
  (w : world ValidateSignature.ValidateSignature) :
  globals !! "log" = None ->
  fst (validate globals request response buffer w) <> Normal tt.
Proof.
  intros Hlog.
  destruct (key_bytes (appSecret (this w))) as [key|] eqn:Hkey.
  - rewrite (validate_cases _ _ _ _ _ _ Hkey), Hlog.
    destruct (falsy _ || strict_neq _ _); discriminate.
  - unfold validate, bind, lift, get_this.
    rewrite (createHmac_not_key _ Hkey). discriminate.
Qed.

Lemma algorithm_of_signature (key buffer : list byte) :
  algorithm_of (signature key buffer) = "sha1".
Proof. reflexivity. Qed.

Lemma get_request_with (declared : option string) :
  get (request_with declared) "X-Hub-Signature" = declared.
Proof.
  unfold get, request_with. cbn [headers toLowerCase].
  destruct declared as [s|].
  - apply (lookup_singleton_eq (M := gmap string)).
  - apply lookup_empty.
Qed.

Lemma constructor_key (secret : value) (key : list byte) :
  key_bytes secret = Some key ->
  key <> [] ->
  constructor secret = Normal {| appSecret := secret |}.
Proof.
  intros Hkey Hne. unfold constructor, Validate.notNull.
  destruct secret as [| |b|text|s|bytes|elems|props|name message|];
    try discriminate Hkey; cbn in Hkey; injection Hkey as <-.
  - destruct s; [contradiction | reflexivity].
  - destruct bytes; [contradiction | reflexivity].
Qed.

(** C1 (defect of the code).  The claim: for every non-empty secret and every
    body, a verifier constructed with the secret accepts the signature
    computed for the body and returns without throwing.  What the code does,
    for a secret that is a non-empty string or buffer: the constructor accepts
    it, and [validate], given the matching signature, reaches [log.debug]; in
    a process whose global object has no [log] it throws a ReferenceError
    there, and receiver and log are as they were. *)
Theorem matching_signature_throws_reference_error
  (globals : gmap string value) (secret : value) (key : list byte)
  (request : Request) (response : value) (buffer : list byte)
  (entries : list log_entry) :
  key_bytes secret = Some key ->
  key <> [] ->
  globals !! "log" = None ->
  get request "X-Hub-Signature" = Some (signature key buffer) ->
  exists verifier : ValidateSignature.ValidateSignature,
    constructor secret = Normal verifier
    /\ validate globals request response buffer (World verifier entries)
       = (Throw (ReferenceError "log is not defined"), World verifier entries).
Proof.
  intros Hkey Hne Hlog He.
  exists {| appSecret := secret |}. split.
  - apply (constructor_key secret key Hkey Hne).
  - apply (validate_match_without_log _ _ _ _ _ key);
      [exact Hlog | exact Hkey | exact He].
Qed.

Lemma matching_signature_throws_reference_error_witness :
  exists verifier : ValidateSignature.ValidateSignature,
    constructor (VStr Fixture.secret) = Normal verifier
    /\ validate node_globals (request_with (Some Fixture.oracle)) VUndefined
         Fixture.body (World verifier [])
       = (Throw (ReferenceError "log is not defined"), World verifier []).
Proof.
  apply (matching_signature_throws_reference_error node_globals
           (VStr Fixture.secret) (list_byte_of_string Fixture.secret)
           (request_with (Some Fixture.oracle)) VUndefined Fixture.body []).
  - reflexivity.
  - discriminate.
  - reflexivity.
  - vm_compute. reflexivity.
Defined.

(** C2 (defect of the code, the one of C1).  The claim: the computed string
    is sha1= followed by the lowercase hex HMAC-SHA1 of the body, and verify
    succeeds exactly when the declared signature is that string.  On the
    scenario of the specification the computed string is the known value;
    [validate] with that very string in the header does not succeed but
    throws the ReferenceError, and with another digest it throws the
    signature error. *)
Theorem scenario_signature_matches_but_validate_throws :
  signature (list_byte_of_string Fixture.secret) Fixture.body = Fixture.oracle
  /\ validate node_globals (request_with (Some Fixture.oracle)) VUndefined
       Fixture.body (World Fixture.verifier [])
     = (Throw (ReferenceError "log is not defined"), World Fixture.verifier [])
  /\ validate node_globals
       (request_with (Some "sha1=0000000000000000000000000000000000000000"))
       VUndefined Fixture.body (World Fixture.verifier [])
     = (Throw InvalidSignatureError, World Fixture.verifier []).
Proof. split; [|split]; vm_compute; reflexivity. Qed.

(** C4.  For every secret and body, [validate] throws the signature error
    when the header is missing, when it is the empty string, and when the
    algorithm it declares is not sha1. *)
Theorem missing_empty_or_foreign_header_is_rejected
  (globals : gmap string value) (request : Request) (response : value)
  (buffer : list byte) (w : world ValidateSignature.ValidateSignature)
  (key : list byte) :
  key_bytes (appSecret (this w)) = Some key ->
  (get request "X-Hub-Signature" = None
   \/ get request "X-Hub-Signature" = Some EmptyString
   \/ exists declared : string,
        get request "X-Hub-Signature" = Some declared
        /\ algorithm_of declared <> "sha1") ->
  validate globals request response buffer w = (Throw InvalidSignatureError, w).
Proof.
  intros Hkey Hcase.
  apply (validate_mismatch _ _ _ _ _ key Hkey).
  destruct Hcase as [E | [E | (declared & E & Halg)]]; rewrite E.
  - discriminate.
  - discriminate.
  - intros H. apply Halg.
    assert (Hd : declared = signature key buffer) by congruence.
    rewrite Hd. apply algorithm_of_signature.
Qed.

Lemma missing_empty_or_foreign_header_is_rejected_witness :
  validate node_globals (request_with None) VUndefined Fixture.body
    (World Fixture.verifier [])
  = (Throw InvalidSignatureError, World Fixture.verifier [])
  /\ validate node_globals (request_with (Some EmptyString)) VUndefined
       Fixture.body (World Fixture.verifier [])
     = (Throw InvalidSignatureError, World Fixture.verifier [])
  /\ validate node_globals
       (request_with (Some "sha256=b2b40d50d212156383cff67951dc36b60069ebcc"))
       VUndefined Fixture.body (World Fixture.verifier [])
     = (Throw InvalidSignatureError, World Fixture.verifier []).
Proof.
  split; [|split].
  - apply (missing_empty_or_foreign_header_is_rejected node_globals
             (request_with None) VUndefined Fixture.body
             (World Fixture.verifier []) (list_byte_of_string Fixture.secret)).
    + reflexivity.
    + left. reflexivity.
  - apply (missing_empty_or_foreign_header_is_rejected node_globals
             (request_with (Some EmptyString)) VUndefined Fixture.body
             (World Fixture.verifier []) (list_byte_of_string Fixture.secret)).
    + reflexivity.
    + right; left. reflexivity.
  - apply (missing_empty_or_foreign_header_is_rejected node_globals
             (request_with
                (Some "sha256=b2b40d50d212156383cff67951dc36b60069ebcc"))
             VUndefined Fixture.body
             (World Fixture.verifier []) (list_byte_of_string Fixture.secret)).
    + reflexivity.
    + right; right.
      exists "sha256=b2b40d50d212156383cff67951dc36b60069ebcc".
      split; [reflexivity | discriminate].
Defined.

(** C5.  Constructing a verifier with an absent secret ([undefined] or
    [null]) or an empty one fails with a ConfigurationError: no instance
    comes out of the constructor, and in
    [new ValidateSignature(secret).validate(...)] the call of [validate] is
    not reached, the outcome being the error of the constructor and the log
    being untouched whatever the request. *)
Theorem absent_or_empty_secret_is_a_configuration_error (secret : value) :
  secret = VUndefined \/ secret = VNull \/ secret = VStr EmptyString ->
  (exists message : string,
     constructor secret = Throw (VErr "ConfigurationError" message)
     /\ forall (globals : gmap string value) (request : Request)
               (response : value) (buffer : list byte)
               (entries : list log_entry),
          construct_and_validate globals secret request response buffer entries
          = (Throw (VErr "ConfigurationError" message), entries))
  /\ forall verifier : ValidateSignature.ValidateSignature,
       constructor secret <> Normal verifier.
Proof.
  intros [-> | [-> | ->]]; (split; [eexists; split; [reflexivity|]|]).
  all: try (intros; reflexivity).
  all: intros verifier H; discriminate H.
Qed.

Lemma absent_or_empty_secret_is_a_configuration_error_witness :
  (exists message : string,
     constructor VNull = Throw (VErr "ConfigurationError" message)
     /\ forall (globals : gmap string value) (request : Request)
               (response : value) (buffer : list byte)
               (entries : list log_entry),
          construct_and_validate globals VNull request response buffer entries
          = (Throw (VErr "ConfigurationError" message), entries))
  /\ forall verifier : ValidateSignature.ValidateSignature,
       constructor VNull <> Normal verifier.
Proof.
  apply (absent_or_empty_secret_is_a_configuration_error VNull).
  right; left. reflexivity.
Defined.

(** C7.  [validate] is deterministic and keeps no state between calls: a
    second call with the same arguments, made after the first, has the
    outcome of the first, and the receiver, its secret included, is after
    each call what it was before, whether the call returns or throws. *)
Theorem validate_is_stateless (globals : gmap string value)
  (request : Request) (response : value) (buffer : list byte)
  (w : world ValidateSignature.ValidateSignature) :
  let first := validate globals request response buffer w in
  let second := validate globals request response buffer (snd first) in
  fst second = fst first
  /\ this (snd first) = this w
  /\ this (snd second) = this w
  /\ appSecret (this (snd first)) = appSecret (this w)
  /\ appSecret (this (snd second)) = appSecret (this w).
Proof.
  intros first second.
  assert (H1 : this (snd first) = this w) by apply validate_this.
  assert (H2 : this (snd second) = this w).
  { unfold second. rewrite validate_this. exact H1. }
  split; [|split; [|split; [|split]]].
  - apply validate_outcome, H1.
  - exact H1.
  - exact H2.
  - rewrite H1. reflexivity.
  - rewrite H2. reflexivity.
Qed.

(** C9 (defect of the code, the one of C1).  The claim: for every secret and
    body, [validate] accepts exactly one declared signature, the canonical
    sha1= string in lowercase hex.  On the scenario of the specification it
    accepts none: the canonical string ends in the ReferenceError, and every
    other header is refused, among them the same digest in uppercase and the
    same digest under the prefix sha256. *)
Theorem scenario_accepts_no_declared_signature :
  (forall declared : option string,
     fst (validate node_globals (request_with declared) VUndefined
            Fixture.body (World Fixture.verifier []))
     <> Normal tt)
  /\ fst (validate node_globals (request_with (Some Fixture.oracle)) VUndefined
            Fixture.body (World Fixture.verifier []))
     = Throw (ReferenceError "log is not defined")
  /\ fst (validate node_globals
            (request_with
               (Some ("sha1=" +:+ upper_hex
                        (hmac_sha1 (list_byte_of_string Fixture.secret)
                                   Fixture.body))))
            VUndefined Fixture.body (World Fixture.verifier []))
     = Throw InvalidSignatureError
  /\ fst (validate node_globals
            (request_with
               (Some ("sha256=" +:+ hex
                        (hmac_sha1 (list_byte_of_string Fixture.secret)
                                   Fixture.body))))
            VUndefined Fixture.body (World Fixture.verifier []))
     = Throw InvalidSignatureError.
Proof.
  split; [|split; [|split]].
  - intros declared. apply validate_never_returns. reflexivity.
  - vm_compute. reflexivity.
  - vm_compute. reflexivity.
  - vm_compute. reflexivity.
Qed.

(** ** [Client.proxyFetchFacebook] *)

Lemma own_property_of_json (props : list (string * json)) (key : string) :
  own_property (map (fun kv => (fst kv, of_json (snd kv))) props) key
  = option_map of_json (lookup_field props key).
Proof.
  induction props as [|[k j] rest IH]; cbn; [reflexivity|].
  destruct (String.eqb k key); [reflexivity | exact IH].
Qed.

Lemma has_own_of_json (props : list (string * json)) (key : string) :
  has_own (map (fun kv => (fst kv, of_json (snd kv))) props) key
  = match lookup_field props key with Some _ => true | None => false end.
Proof.
  unfold has_own. rewrite own_property_of_json.
  destruct (lookup_field props key); reflexivity.
Qed.

Lemma to_string_single (x : value) :
  to_string (VArr [x]) = element_to_string x.
Proof. reflexivity. Qed.

Lemma to_string_cons (x y : value) (rest : list value) :
  to_string (VArr (x :: y :: rest))
  = cbind (element_to_string x) (fun s =>
    cbind (to_string (VArr (y :: rest))) (fun r => Normal (s +:+ "," +:+ r))).
Proof. reflexivity. Qed.

Lemma join_throws (elems : list value) :
  Forall throws_TypeError elems -> throws_TypeError (VArr elems).
Proof.
  induction 1 as [|x rest Hx Hrest IH]; intros e; [discriminate|].
  assert (Hel : forall e' : value,
             element_to_string x = Throw e' ->
             exists message : string, e' = TypeError message).
  { intros e'. destruct x; try discriminate; apply Hx. }
  destruct rest as [|y rest'].
  - rewrite to_string_single. apply Hel.
  - rewrite to_string_cons.
    destruct (element_to_string x) as [s0|e0] eqn:Eel; cbn [cbind].
    + destruct (to_string (VArr (y :: rest'))) as [r|e1] eqn:Ej; cbn [cbind].
      * discriminate.
      * intros H. injection H as <-. apply IH, Ej.
    + intros H. injection H as <-. apply Hel. reflexivity.
Qed.

Lemma to_string_throws : forall v : value, throws_TypeError v.
Proof.
  fix IH 1. intros v.
  destruct v as [| |b|text|s|bytes|elems|props|name message|].
  all: try (intros e; cbn [to_string]; discriminate).
  - apply join_throws.
    induction elems as [|x rest IHrest]; constructor; [apply IH | exact IHrest].
  - intros e. cbn [to_string].
    destruct (has_own props "toString"); [|discriminate].
    intros H. injection H as <-. eexists. reflexivity.
Qed.

(** The reaction to a rejection writes the error to the log and rejects with
    an error of its own making. *)
Lemma log_and_wrap_throws (error : value) (w : world Client.Client) :
  exists name message : string,
    log_and_wrap error w
    = (Throw (VErr name message),
       World (this w) (log w ++ [LogEntry "error" error])).
Proof.
  unfold log_and_wrap, log_error, write_log, bind, lift, throw.
  destruct (get_message error) as [m|e] eqn:Em.
  - unfold new_Error.
    destruct (to_string m) as [s|e] eqn:Es.
    + destruct m; cbn [cbind]; eexists _, _; reflexivity.
    + destruct (to_string_throws m e Es) as [message ->].
      destruct m; try discriminate Es; cbn [cbind]; eexists _, _; reflexivity.
  - assert (exists message, e = TypeError message) as [message ->].
    { destruct error; cbn in Em; try discriminate Em;
        injection Em as <-; eexists; reflexivity. }
    eexists _, _. reflexivity.
Qed.

Lemma log_and_wrap_message (error : value) (m : string)
  (w : world Client.Client) :
  get_message error = Normal (VStr m) ->
  log_and_wrap error w
  = (Throw (Error m), World (this w) (log w ++ [LogEntry "error" error])).
Proof.
  intros Hm. unfold log_and_wrap, log_error, write_log, bind, lift, throw.
  rewrite Hm. reflexivity.
Qed.

(** The reaction of [proxyFetchFacebook] to a rejection, exactly. *)
Lemma log_and_wrap_exact (error : value) (w : world Client.Client) :
  log_and_wrap error w
  = (Throw (wrapped error),
     World (this w) (log w ++ [LogEntry "error" error])).
Proof.
  unfold log_and_wrap, wrapped, log_error, write_log, bind, lift, throw.
  destruct (get_message error) as [m|e]; cbn [cbind]; [|reflexivity].
  destruct (new_Error m); reflexivity.
Qed.

Lemma of_json_is_no_error (j : json) (name message : string) :
  of_json j <> VErr name message.
Proof. destruct j; discriminate. Qed.

Lemma wrapped_message (e mv : json) :
  field e "message" = Some mv ->
  wrapped (of_json e)
  = match to_string (of_json mv) with
    | Normal s => Error s
    | Throw x => x
    end.
Proof.
  destruct e as [| |text|s|elems|eprops]; try discriminate.
  cbn [field]. intros Hm.
  unfold wrapped. cbn [of_json get_message get_data_property].
  rewrite own_property_of_json, Hm. cbn [option_map cbind].
  unfold new_Error.
  destruct mv; cbn [of_json];
    match goal with
    | |- context [to_string ?v] => destruct (to_string v); reflexivity
    end.
Qed.

Lemma wrapped_no_message (e : json) :
  e <> JNull -> field e "message" = None ->
  wrapped (of_json e) = Error EmptyString.
Proof.
  intros Hnull Hm.
  destruct e as [| |text|s|elems|eprops]; try contradiction; try reflexivity.
  cbn [field] in Hm.
  unfold wrapped. cbn [of_json get_message get_data_property].
  rewrite own_property_of_json, Hm. reflexivity.
Qed.

(** The reaction to the parsed body, case by case. *)
Lemma reject_error_field_present (parsed e : json) (w : world Client.Client) :
  field parsed "error" = Some e ->
  field parsed "hasOwnProperty" = None ->
  reject_error_field parsed w = (Normal (Rejected (of_json e)), w).
Proof.
  destruct parsed as [| | | | |props]; try discriminate.
  cbn [field]. intros He Hs.
  unfold reject_error_field, bind, lift, ret.
  cbn [of_json hasOwnProperty get_data_property].
  rewrite !has_own_of_json, Hs, He, own_property_of_json, He.
  reflexivity.
Qed.

Lemma reject_error_field_shadowed (parsed s : json) (w : world Client.Client) :
  field parsed "hasOwnProperty" = Some s ->
  reject_error_field parsed w
  = (Throw (TypeError "item.hasOwnProperty is not a function"), w).
Proof.
  destruct parsed as [| | | | |props]; try discriminate.
  cbn [field]. intros Hs.
  unfold reject_error_field, bind, lift, ret.
  cbn [of_json hasOwnProperty].
  rewrite has_own_of_json, Hs. reflexivity.
Qed.

Lemma reject_error_field_absent (parsed : json) (w : world Client.Client) :
  parsed <> JNull ->
  field parsed "error" = None ->
  field parsed "hasOwnProperty" = None ->
  reject_error_field parsed w = (Normal (Fulfilled (of_json parsed)), w).
Proof.
  intros Hnull He Hs.
  destruct parsed as [| |text|s|elems|props]; try contradiction.
  1-4: reflexivity.
  cbn [field] in He, Hs.
  unfold reject_error_field, bind, lift, ret.
  cbn [of_json hasOwnProperty].
  rewrite !has_own_of_json, Hs, He. reflexivity.
Qed.

(** The chain of [proxyFetchFacebook] when the response has a JSON body. *)
Lemma proxyFetchFacebook_parsed
  (fetch : string -> FetchOptions -> promise Response) (url : string)
  (body : option value) (method : option string) (w : world Client.Client)
  (resp : Response) (parsed : json) :
  fetch url (fetch_options (this w) body method) = Fulfilled resp ->
  json_body resp = Fulfilled parsed ->
  proxyFetchFacebook fetch url body method w =
    match reject_error_field parsed w with
    | (Normal (Fulfilled v), w') => (Fulfilled v, w')
    | (Normal (Rejected e), w') | (Throw e, w') =>
        match log_and_wrap e w' with
        | (Normal q, w'') => (q, w'')
        | (Throw e', w'') => (Rejected e', w'')
        end
    end.
Proof.
  intros Hfetch Hjson.
  unfold proxyFetchFacebook, catch_, then_. rewrite Hfetch.
  cbn [ret]. rewrite Hjson.
  destruct (reject_error_field parsed w) as [[[v|e]|e] w']; reflexivity.
Qed.

(** C8, amended.  When the response has a JSON body: if the parsed object
    has an [error] field the promise rejects, and what it rejects with is
    never the field but an error object that the catch reaction makes.  When
    the parsed object does not redefine [hasOwnProperty], that object is:
    [new Error(s)] for the string form [s] of the [message] of the field; an
    [Error] with an empty message when the field is not [null] and has no
    [message]; a TypeError when the field is [null], or when its [message]
    cannot be converted to a string.  If the parsed value is not [null], has
    no [error] field and does not redefine [hasOwnProperty], the promise
    resolves with it. *)
Theorem error_field_rejects_with_new_error
  (fetch : string -> FetchOptions -> promise Response) (url : string)
  (body : option value) (method : option string) (w : world Client.Client)
  (resp : Response) (parsed : json) :
  fetch url (fetch_options (this w) body method) = Fulfilled resp ->
  json_body resp = Fulfilled parsed ->
  let settled := fst (proxyFetchFacebook fetch url body method w) in
  (forall e : json,
     field parsed "error" = Some e ->
     (exists name message : string, settled = Rejected (VErr name message))
     /\ settled <> Rejected (of_json e))
  /\ (forall e : json,
        field parsed "error" = Some e ->
        field parsed "hasOwnProperty" = None ->
        (forall (mv : json) (s : string),
           field e "message" = Some mv ->
           to_string (of_json mv) = Normal s ->
           settled = Rejected (Error s))
        /\ (forall (mv : json) (x : value),
              field e "message" = Some mv ->
              to_string (of_json mv) = Throw x ->
              exists message : string, settled = Rejected (TypeError message))
        /\ (e <> JNull -> field e "message" = None ->
            settled = Rejected (Error EmptyString))
        /\ (e = JNull ->
            exists message : string, settled = Rejected (TypeError message)))
  /\ (parsed <> JNull ->
      field parsed "error" = None ->
      field parsed "hasOwnProperty" = None ->
      settled = Fulfilled (of_json parsed)).
Proof.
  intros Hfetch Hjson settled. unfold settled.
  rewrite (proxyFetchFacebook_parsed _ _ _ _ _ _ _ Hfetch Hjson).
  split; [|split].
  - intros e He.
    assert (Herr : exists name message : string,
               fst (match reject_error_field parsed w with
                    | (Normal (Fulfilled v), w') => (Fulfilled v, w')
                    | (Normal (Rejected e0), w') | (Throw e0, w') =>
                        match log_and_wrap e0 w' with
                        | (Normal q, w'') => (q, w'')
                        | (Throw e', w'') => (Rejected e', w'')
                        end
                    end) = Rejected (VErr name message)).
    { destruct (field parsed "hasOwnProperty") as [s|] eqn:Hs.
      - rewrite (reject_error_field_shadowed _ _ _ Hs).
        destruct (log_and_wrap_throws
                    (TypeError "item.hasOwnProperty is not a function") w)
          as (name & message & ->).
        exists name, message. reflexivity.
      - rewrite (reject_error_field_present _ _ _ He Hs).
        destruct (log_and_wrap_throws (of_json e) w) as (name & message & ->).
        exists name, message. reflexivity. }
    split; [exact Herr|].
    destruct Herr as (name & message & ->). intros H. injection H as H.
    symmetry in H. exact (of_json_is_no_error _ _ _ H).
  - intros e He Hs.
    rewrite (reject_error_field_present _ _ _ He Hs), log_and_wrap_exact.
    cbn [fst].
    split; [|split; [|split]].
    + intros mv s Hm Hstr. rewrite (wrapped_message _ _ Hm), Hstr. reflexivity.
    + intros mv x Hm Hstr. rewrite (wrapped_message _ _ Hm), Hstr.
      destruct (to_string_throws _ _ Hstr) as (message & ->).
      exists message. reflexivity.
    + intros Hnull Hm. rewrite (wrapped_no_message _ Hnull Hm). reflexivity.
    + intros ->. eexists. reflexivity.
  - intros Hnull He Hs.
    rewrite (reject_error_field_absent _ _ Hnull He Hs). reflexivity.
Qed.

Lemma error_field_rejects_with_new_error_witness :
  fst (proxyFetchFacebook (Fixture.fetch_always Fixture.error_reply)
         "https://graph.facebook.com/v2.8/me/messages" None None
         (World Fixture.page []))
  = Rejected (Error "Invalid OAuth access token.").
Proof.
  refine (proj1 (proj1 (proj2 (error_field_rejects_with_new_error
            (Fixture.fetch_always Fixture.error_reply)
            "https://graph.facebook.com/v2.8/me/messages" None None
            (World Fixture.page [])
            {| json_body := Fulfilled Fixture.error_reply |}
            Fixture.error_reply _ _))
          Fixture.oauth_error _ _)
          (JStr "Invalid OAuth access token.") "Invalid OAuth access token."
          _ _);
    reflexivity.
Defined.

(** C8, as claimed, fails: the promise for a body with an [error] field does
    not reject with that field but with a new [Error] that keeps its message
    only; and a body without an [error] field whose object has a property
    named [hasOwnProperty] is rejected, not resolved. *)
Lemma error_field_is_not_the_rejection :
  field Fixture.error_reply "error" = Some Fixture.oauth_error
  /\ fst (proxyFetchFacebook (Fixture.fetch_always Fixture.error_reply)
            "https://graph.facebook.com/v2.8/me/messages" None None
            (World Fixture.page []))
     = Rejected (Error "Invalid OAuth access token.")
  /\ Rejected (Error "Invalid OAuth access token.")
     <> Rejected (A := value) (of_json Fixture.oauth_error)
  /\ field Fixture.shadowing_reply "error" = None
  /\ fst (proxyFetchFacebook (Fixture.fetch_always Fixture.shadowing_reply)
            "https://graph.facebook.com/v2.8/me/messages" None None
            (World Fixture.page []))
     = Rejected (Error "item.hasOwnProperty is not a function").
Proof.
  split; [|split; [|split; [|split]]];
    [reflexivity | reflexivity | discriminate | reflexivity | reflexivity].
Qed.

(** ** The messenger-profile operations *)

Lemma keeps_this_bind {T A B : Type} (c : M T A) (k : A -> M T B) :
  keeps_this c -> (forall a : A, keeps_this (k a)) -> keeps_this (bind c k).
Proof.
  intros Hc Hk w. unfold bind.
  specialize (Hc w). destruct (c w) as [[a|e] w']; cbn [snd] in *.
  - rewrite Hk. exact Hc.
  - exact Hc.
Qed.

Lemma this_after_bind {T A B : Type} (c : M T A) (k : A -> M T B)
  (w : world T) :
  (forall a : A, keeps_this (k a)) ->
  this (snd (bind c k w)) = this (snd (c w)).
Proof.
  intros Hk. unfold bind.
  destruct (c w) as [[a|e] w']; cbn [snd]; [apply Hk | reflexivity].
Qed.

Lemma keeps_this_lift {T A : Type} (c : completion A) :
  keeps_this (lift (T := T) c).
Proof. intros w. reflexivity. Qed.

Lemma keeps_this_ret {T A : Type} (a : A) : keeps_this (ret (T := T) a).
Proof. intros w. reflexivity. Qed.

Lemma keeps_this_throw {T A : Type} (e : value) :
  keeps_this (throw (T := T) (A := A) e).
Proof. intros w. reflexivity. Qed.

Lemma keeps_this_get_this {T : Type} : keeps_this (get_this (T := T)).
Proof. intros w. reflexivity. Qed.

Lemma keeps_this_write_log {T : Type} (lvl : string) (v : value) :
  keeps_this (write_log (T := T) lvl v).
Proof. intros w. reflexivity. Qed.

Lemma keeps_this_then {T A B : Type} (p : P T A)
  (onFulfilled : A -> M T (promise B)) :
  keeps_this p -> (forall a : A, keeps_this (onFulfilled a)) ->
  keeps_this (then_ p onFulfilled).
Proof.
  intros Hp Hf w. unfold then_.
  specialize (Hp w). destruct (p w) as [[a|e] w']; cbn [snd] in *.
  - specialize (Hf a w').
    destruct (onFulfilled a w') as [[q|e] w'']; cbn [snd] in *; congruence.
  - exact Hp.
Qed.

Lemma keeps_this_catch {T A : Type} (p : P T A)
  (onRejected : value -> M T (promise A)) :
  keeps_this p -> (forall e : value, keeps_this (onRejected e)) ->
  keeps_this (catch_ p onRejected).
Proof.
  intros Hp Hf w. unfold catch_.
  specialize (Hp w). destruct (p w) as [[a|e] w']; cbn [snd] in *.
  - exact Hp.
  - specialize (Hf e w').
    destruct (onRejected e w') as [[q|e'] w'']; cbn [snd] in *; congruence.
Qed.

Create HintDb keeps discriminated.

#[local] Hint Resolve keeps_this_lift keeps_this_ret keeps_this_throw
  keeps_this_get_this keeps_this_write_log : keeps.
#[local] Hint Extern 2 (keeps_this (bind _ _)) =>
  apply keeps_this_bind; [|intros ?] : keeps.
#[local] Hint Extern 2 (keeps_this (then_ _ _)) =>
  apply keeps_this_then; [|intros ?] : keeps.
#[local] Hint Extern 2 (keeps_this (catch_ _ _)) =>
  apply keeps_this_catch; [|intros ?] : keeps.
#[local] Hint Extern 3 (keeps_this (if ?b then _ else _)) =>
  destruct b : keeps.

Section ProfileOperations.

Variable fetch : string -> FetchOptions -> promise Response.
Variable oneOf : value -> list value -> string -> string -> completion unit.
Variable MessengerProfile_name : string.
Variable validProperties : list value.
Variable JSON_stringify : value -> value.

Lemma keeps_this_log_and_wrap (error : value) : keeps_this (log_and_wrap error).
Proof. unfold log_and_wrap, log_error. auto 10 with keeps. Qed.

Lemma keeps_this_log_and_reject (error : value) :
  keeps_this (log_and_reject error).
Proof. unfold log_and_reject, log_error. auto 10 with keeps. Qed.

Lemma keeps_this_reject_error_field (parsed : json) :
  keeps_this (reject_error_field parsed).
Proof. unfold reject_error_field. auto 10 with keeps. Qed.

Lemma keeps_this_proxyFetchFacebook (url : string) (body : option value)
  (method : option string) :
  keeps_this (proxyFetchFacebook fetch url body method).
Proof.
  intros w. unfold proxyFetchFacebook.
  apply keeps_this_catch; [|apply keeps_this_log_and_wrap].
  apply keeps_this_then; [|apply keeps_this_reject_error_field].
  apply keeps_this_then; [intros w0; reflexivity|].
  intros resp. apply keeps_this_ret.
Qed.

Lemma keeps_this_settle {A : Type} (p : P Client.Client A) :
  keeps_this p -> keeps_this (settle p).
Proof.
  intros Hp w. unfold settle. specialize (Hp w).
  destruct (p w) as [r w']. exact Hp.
Qed.

Lemma keeps_this_for_of (keys : list string)
  (body : string -> M Client.Client unit) :
  (forall key : string, keeps_this (body key)) -> keeps_this (for_of keys body).
Proof.
  intros Hb. induction keys as [|key rest IH]; cbn [for_of].
  - apply keeps_this_ret.
  - apply keeps_this_bind; [apply Hb | intros _; exact IH].
Qed.

(** The receiver after [validateMessengerProfile]: the assignment is made
    once the class of the argument has been checked and [toObject] called,
    and nothing after it touches the receiver. *)
Lemma this_after_validateMessengerProfile (profile : argument) (fields : bool)
  (w : world Client.Client) :
  this (snd (validateMessengerProfile oneOf MessengerProfile_name
               validProperties profile fields w))
  = match constructor_name profile with
    | Normal name =>
        match oneOf name [VStr MessengerProfile_name] "Messenger Profile"
                    "Client.validateMessengerProfile" with
        | Normal _ =>
            match call_toObject profile with
            | Normal object => with_messenger_profile (this w) object
            | Throw _ => this w
            end
        | Throw _ => this w
        end
    | Throw _ => this w
    end.
Proof.
  unfold validateMessengerProfile.
  unfold bind at 1, lift at 1.
  destruct (constructor_name profile) as [name|e]; [|reflexivity].
  unfold bind at 1, lift at 1.
  destruct (oneOf name _ _ _) as [[]|e]; [|reflexivity].
  unfold bind at 1, lift at 1.
  destruct (call_toObject profile) as [object|e]; [|reflexivity].
  rewrite this_after_bind; [reflexivity|].
  intros _.
  apply keeps_this_bind; [apply keeps_this_get_this|]. intros self.
  apply keeps_this_bind; [apply keeps_this_lift|]. intros keys.
  apply keeps_this_for_of. intros key. apply keeps_this_lift.
Qed.

Lemma this_after_getMessengerProfile (profile : argument)
  (w : world Client.Client) :
  this (snd (getMessengerProfile fetch oneOf MessengerProfile_name
               validProperties profile w))
  = this (snd (validateMessengerProfile oneOf MessengerProfile_name
                 validProperties profile true w)).
Proof.
  unfold getMessengerProfile. apply this_after_bind. intros _.
  apply keeps_this_bind; [apply keeps_this_get_this|]. intros self.
  apply keeps_this_bind; [apply keeps_this_lift|]. intros fields.
  apply keeps_this_bind; [apply keeps_this_lift|]. intros text.
  apply keeps_this_bind; [apply keeps_this_lift|]. intros token.
  apply keeps_this_settle, keeps_this_catch;
    [|apply keeps_this_log_and_reject].
  apply keeps_this_then; [apply keeps_this_proxyFetchFacebook|].
  intros botSettings. apply keeps_this_ret.
Qed.

Lemma this_after_setMessengerProfile (profile : argument)
  (w : world Client.Client) :
  this (snd (setMessengerProfile fetch oneOf MessengerProfile_name
               validProperties JSON_stringify profile w))
  = this (snd (validateMessengerProfile oneOf MessengerProfile_name
                 validProperties profile false w)).
Proof.
  unfold setMessengerProfile. apply this_after_bind. intros _.
  apply keeps_this_bind; [apply keeps_this_get_this|]. intros self.
  apply keeps_this_bind; [apply keeps_this_lift|]. intros token.
  apply keeps_this_settle, keeps_this_catch;
    [apply keeps_this_proxyFetchFacebook | apply keeps_this_log_and_reject].
Qed.

Lemma this_after_deleteMessengerProfile (profile : argument)
  (w : world Client.Client) :
  this (snd (deleteMessengerProfile fetch oneOf MessengerProfile_name
               validProperties JSON_stringify profile w))
  = this (snd (validateMessengerProfile oneOf MessengerProfile_name
                 validProperties profile true w)).
Proof.
  unfold deleteMessengerProfile. apply this_after_bind. intros _.
  apply keeps_this_bind; [apply keeps_this_get_this|]. intros self.
  apply keeps_this_bind; [apply keeps_this_lift|]. intros token.
  apply keeps_this_settle, keeps_this_catch;
    [apply keeps_this_proxyFetchFacebook | apply keeps_this_log_and_reject].
Qed.

Lemma validateMessengerProfile_connection (profile : argument) (fields : bool)
  (w : world Client.Client) :
  same_connection
    (this (snd (validateMessengerProfile oneOf MessengerProfile_name
                  validProperties profile fields w)))
    (this w).
Proof.
  rewrite this_after_validateMessengerProfile.
  destruct (constructor_name profile) as [name|e];
    [|repeat split].
  destruct (oneOf name _ _ _) as [[]|e]; [|repeat split].
  destruct (call_toObject profile) as [object|e]; repeat split.
Qed.

Lemma validateMessengerProfile_assigns (class_name : string) (object : value)
  (fields : bool) (w : world Client.Client) :
  oneOf (VStr class_name) [VStr MessengerProfile_name] "Messenger Profile"
        "Client.validateMessengerProfile" = Normal tt ->
  this (snd (validateMessengerProfile oneOf MessengerProfile_name
               validProperties (Instance class_name (Some object)) fields w))
  = with_messenger_profile (this w) object.
Proof.
  intros Hclass. rewrite this_after_validateMessengerProfile.
  cbn [constructor_name call_toObject]. rewrite Hclass. reflexivity.
Qed.

Lemma validateMessengerProfile_assigns_object (profile : argument)
  (name object : value) (fields : bool) (w : world Client.Client) :
  constructor_name profile = Normal name ->
  oneOf name [VStr MessengerProfile_name] "Messenger Profile"
        "Client.validateMessengerProfile" = Normal tt ->
  call_toObject profile = Normal object ->
  this (snd (validateMessengerProfile oneOf MessengerProfile_name
               validProperties profile fields w))
  = with_messenger_profile (this w) object.
Proof.
  intros Hname Hclass Hobject. rewrite this_after_validateMessengerProfile.
  rewrite Hname, Hclass, Hobject. reflexivity.
Qed.

(** The three ways in which [validateMessengerProfile] throws before it
    assigns: reading [profile.constructor.name] throws, the check of the
    class throws, or [profile.toObject()] throws. *)
Lemma validateMessengerProfile_throws_early (profile : argument) (e : value)
  (fields : bool) (w : world Client.Client) :
  (constructor_name profile = Throw e
   \/ (exists name : value,
         constructor_name profile = Normal name
         /\ oneOf name [VStr MessengerProfile_name] "Messenger Profile"
                  "Client.validateMessengerProfile" = Throw e)
   \/ (exists name : value,
         constructor_name profile = Normal name
         /\ oneOf name [VStr MessengerProfile_name] "Messenger Profile"
                  "Client.validateMessengerProfile" = Normal tt
         /\ call_toObject profile = Throw e)) ->
  validateMessengerProfile oneOf MessengerProfile_name validProperties
    profile fields w
  = (Throw e, w).
Proof.
  unfold validateMessengerProfile.
  intros [Hname | [(name & Hname & Hclass)
                  | (name & Hname & Hclass & Hobject)]];
    unfold bind at 1, lift at 1; rewrite Hname; [reflexivity| |];
    unfold bind at 1, lift at 1; rewrite Hclass; [reflexivity|].
  unfold bind at 1, lift at 1. rewrite Hobject. reflexivity.
Qed.

(** C10, amended.  [validateMessengerProfile] assigns [messenger_profile]
    once [profile.constructor.name] has passed the check of the class and
    [profile.toObject()] has returned, also when a key is refused
    afterwards: after [getMessengerProfile], [setMessengerProfile] or
    [deleteMessengerProfile] on such a profile the field holds what
    [toObject()] returned, whatever it held before.  A call whose argument
    is absent (reading [profile.constructor.name] throws), fails the check
    of the class, or has no [toObject] to call, throws before the
    assignment and leaves client and log as they were.  After any call of
    the three, with any argument, [baseURL], [pageAccessToken] and
    [proxyAgent] are what they were. *)
Theorem profile_operations_assign_messenger_profile
  (profile : argument) (w : world Client.Client) :
  let get_ :=
    getMessengerProfile fetch oneOf MessengerProfile_name validProperties
                        profile w in
  let set_ :=
    setMessengerProfile fetch oneOf MessengerProfile_name validProperties
                        JSON_stringify profile w in
  let delete_ :=
    deleteMessengerProfile fetch oneOf MessengerProfile_name validProperties
                           JSON_stringify profile w in
  let class_check (name : value) :=
    oneOf name [VStr MessengerProfile_name] "Messenger Profile"
          "Client.validateMessengerProfile" in
  (same_connection (this (snd get_)) (this w)
   /\ same_connection (this (snd set_)) (this w)
   /\ same_connection (this (snd delete_)) (this w))
  /\ (forall name object : value,
        constructor_name profile = Normal name ->
        class_check name = Normal tt ->
        call_toObject profile = Normal object ->
        (forall fields : bool,
           messenger_profile
             (this (snd (validateMessengerProfile oneOf MessengerProfile_name
                           validProperties profile fields w)))
           = Some object)
        /\ messenger_profile (this (snd get_)) = Some object
        /\ messenger_profile (this (snd set_)) = Some object
        /\ messenger_profile (this (snd delete_)) = Some object)
  /\ (forall e : value,
        (constructor_name profile = Throw e
         \/ (exists name : value,
               constructor_name profile = Normal name
               /\ class_check name = Throw e)
         \/ (exists name : value,
               constructor_name profile = Normal name
               /\ class_check name = Normal tt
               /\ call_toObject profile = Throw e)) ->
        (forall fields : bool,
           validateMessengerProfile oneOf MessengerProfile_name
             validProperties profile fields w = (Throw e, w))
        /\ get_ = (Throw e, w)
        /\ set_ = (Throw e, w)
        /\ delete_ = (Throw e, w)).
Proof.
  intros get_ set_ delete_ class_check.
  unfold get_, set_, delete_, class_check.
  split; [|split].
  - rewrite this_after_getMessengerProfile, this_after_setMessengerProfile,
      this_after_deleteMessengerProfile.
    split; [|split]; apply validateMessengerProfile_connection.
  - intros name object Hname Hclass Hobject.
    rewrite this_after_getMessengerProfile, this_after_setMessengerProfile,
      this_after_deleteMessengerProfile.
    split; [|split; [|split]]; try intros fields;
      rewrite (validateMessengerProfile_assigns_object _ _ _ _ _
                 Hname Hclass Hobject);
      reflexivity.
  - intros e Hearly.
    split; [|split; [|split]].
    + intros fields. apply validateMessengerProfile_throws_early, Hearly.
    + unfold getMessengerProfile, bind at 1.
      rewrite (validateMessengerProfile_throws_early _ _ true w Hearly).
      reflexivity.
    + unfold setMessengerProfile, bind at 1.
      rewrite (validateMessengerProfile_throws_early _ _ false w Hearly).
      reflexivity.
    + unfold deleteMessengerProfile, bind at 1.
      rewrite (validateMessengerProfile_throws_early _ _ true w Hearly).
      reflexivity.
Qed.

End ProfileOperations.

Lemma profile_operations_assign_messenger_profile_witness :
  messenger_profile
    (this (snd (getMessengerProfile
                  (Fixture.fetch_always (JObj [("data", JArr [])]))
                  Fixture.oneOf Fixture.MessengerProfile_name
                  Fixture.validProperties Fixture.profile
                  (World Fixture.page_after_earlier_call []))))
  = Some (VObj [("fields", VStr "greeting")])
  /\ getMessengerProfile
       (Fixture.fetch_always (JObj [("data", JArr [])]))
       Fixture.oneOf Fixture.MessengerProfile_name
       Fixture.validProperties (Instance "MessengerProfile" None)
       (World Fixture.page_after_earlier_call [])
     = (Throw (TypeError "profile.toObject is not a function"),
        World Fixture.page_after_earlier_call []).
Proof.
  split.
  - refine (proj1 (proj2 (proj1 (proj2
              (profile_operations_assign_messenger_profile
                 (Fixture.fetch_always (JObj [("data", JArr [])]))
                 Fixture.oneOf Fixture.MessengerProfile_name
                 Fixture.validProperties Fixture.JSON_stringify
                 Fixture.profile
                 (World Fixture.page_after_earlier_call [])))
              (VStr "MessengerProfile") (VObj [("fields", VStr "greeting")])
              _ _ _)));
      reflexivity.
  - refine (proj1 (proj2 (proj2 (proj2
              (profile_operations_assign_messenger_profile
                 (Fixture.fetch_always (JObj [("data", JArr [])]))
                 Fixture.oneOf Fixture.MessengerProfile_name
                 Fixture.validProperties Fixture.JSON_stringify
                 (Instance "MessengerProfile" None)
                 (World Fixture.page_after_earlier_call [])))
              (TypeError "profile.toObject is not a function") _))).
    right; right. exists (VStr "MessengerProfile").
    split; [|split]; reflexivity.
Defined.

(** C10, as claimed, fails: a call of [getMessengerProfile],
    [setMessengerProfile] or [deleteMessengerProfile] without a profile
    throws at [profile.constructor], before the assignment; the client, its
    [messenger_profile] included, and the log are what they were. *)
Lemma call_without_profile_leaves_client_unchanged :
  getMessengerProfile (Fixture.fetch_always (JObj [("data", JArr [])]))
    Fixture.oneOf Fixture.MessengerProfile_name Fixture.validProperties
    (Data VUndefined) (World Fixture.page_after_earlier_call [])
  = (Throw (TypeError "Cannot read property 'constructor' of undefined"),
     World Fixture.page_after_earlier_call [])
  /\ setMessengerProfile (Fixture.fetch_always (JObj [("data", JArr [])]))
       Fixture.oneOf Fixture.MessengerProfile_name Fixture.validProperties
       Fixture.JSON_stringify
       (Data VUndefined) (World Fixture.page_after_earlier_call [])
     = (Throw (TypeError "Cannot read property 'constructor' of undefined"),
        World Fixture.page_after_earlier_call [])
  /\ deleteMessengerProfile (Fixture.fetch_always (JObj [("data", JArr [])]))
       Fixture.oneOf Fixture.MessengerProfile_name Fixture.validProperties
       Fixture.JSON_stringify
       (Data VUndefined) (World Fixture.page_after_earlier_call [])
     = (Throw (TypeError "Cannot read property 'constructor' of undefined"),
        World Fixture.page_after_earlier_call []).
Proof. split; [|split]; reflexivity. Qed.

(** * Further properties of the two files *)

(** ** [ValidateSignature.validate] *)

Lemma hex_length (bs : list byte) :
  String.length (hex bs) = (2 * length bs)%nat.
Proof.
  induction bs as [|b rest IH]; [reflexivity|].
  cbn [hex String.length length]. rewrite IH. lia.
Qed.

Lemma signature_length (key buffer : list byte) :
  String.length (signature key buffer) = 45%nat.
Proof.
  unfold signature. cbv beta iota delta [String.append].
  cbn [String.length]. rewrite hex_length, hmac_sha1_length. reflexivity.
Qed.

(** X1.  When the application has put a logger under the global name [log],
    [validate] returns normally exactly when the header is the computed
    signature; it then writes the one entry Valid signature! at level debug
    and leaves the receiver as it was. *)
Theorem logger_makes_validate_return_on_match
  (globals : gmap string value) (request : Request) (response : value)
  (buffer : list byte) (w : world ValidateSignature.ValidateSignature)
  (key : list byte) :
  globals !! "log" = Some VLogger ->
  key_bytes (appSecret (this w)) = Some key ->
  (fst (validate globals request response buffer w) = Normal tt
   <-> get request "X-Hub-Signature" = Some (signature key buffer))
  /\ (get request "X-Hub-Signature" = Some (signature key buffer) ->
      snd (validate globals request response buffer w)
      = World (this w)
              (log w ++ [LogEntry "debug" (VStr "Valid signature!")])).
Proof.
  intros Hlog Hkey. split; [split|].
  - apply (validate_accepts_only_canonical _ _ _ _ _ _ Hkey).
  - intros He.
    rewrite (validate_match_with_logger _ _ _ _ _ _ Hlog Hkey He). reflexivity.
  - intros He.
    rewrite (validate_match_with_logger _ _ _ _ _ _ Hlog Hkey He). reflexivity.
Qed.

Lemma logger_makes_validate_return_on_match_witness :
  (fst (validate {[ "log" := VLogger ]} (request_with (Some Fixture.oracle))
          VUndefined Fixture.body (World Fixture.verifier []))
   = Normal tt
   <-> get (request_with (Some Fixture.oracle)) "X-Hub-Signature"
       = Some (signature (list_byte_of_string Fixture.secret) Fixture.body))
  /\ (get (request_with (Some Fixture.oracle)) "X-Hub-Signature"
      = Some (signature (list_byte_of_string Fixture.secret) Fixture.body) ->
      snd (validate {[ "log" := VLogger ]} (request_with (Some Fixture.oracle))
             VUndefined Fixture.body (World Fixture.verifier []))
      = World Fixture.verifier [LogEntry "debug" (VStr "Valid signature!")]).
Proof.
  apply (logger_makes_validate_return_on_match {[ "log" := VLogger ]}
           (request_with (Some Fixture.oracle)) VUndefined Fixture.body
           (World Fixture.verifier []) (list_byte_of_string Fixture.secret)).
  - reflexivity.
  - reflexivity.
Defined.

(** X2.  Whatever the global object holds, a header that is not, byte for
    byte, the computed signature is refused with the signature error, and
    receiver and log are as they were; so a call that returns had the
    computed signature in its header. *)
Theorem any_other_header_is_refused
  (globals : gmap string value) (request : Request) (response : value)
  (buffer : list byte) (w : world ValidateSignature.ValidateSignature)
  (key : list byte) :
  key_bytes (appSecret (this w)) = Some key ->
  (get request "X-Hub-Signature" <> Some (signature key buffer) ->
   validate globals request response buffer w
   = (Throw InvalidSignatureError, w))
  /\ (fst (validate globals request response buffer w) = Normal tt ->
      get request "X-Hub-Signature" = Some (signature key buffer)).
Proof.
  intros Hkey. split.
  - apply validate_mismatch, Hkey.
  - apply validate_accepts_only_canonical, Hkey.
Qed.

Lemma any_other_header_is_refused_witness :
  validate {[ "log" := VLogger ]}
    (request_with (Some "sha1=B2B40D50D212156383CFF67951DC36B60069EBCC"))
    VUndefined Fixture.body (World Fixture.verifier [])
  = (Throw InvalidSignatureError, World Fixture.verifier []).
Proof.
  apply (any_other_header_is_refused {[ "log" := VLogger ]}
           (request_with (Some "sha1=B2B40D50D212156383CFF67951DC36B60069EBCC"))
           VUndefined Fixture.body (World Fixture.verifier [])
           (list_byte_of_string Fixture.secret)).
  - reflexivity.
  - vm_compute. discriminate.
Defined.

(** X3.  The computed signature has 45 characters, so a header of any other
    length is refused. *)
Theorem header_of_another_length_is_refused
  (globals : gmap string value) (request : Request) (response : value)
  (buffer : list byte) (w : world ValidateSignature.ValidateSignature)
  (key : list byte) (declared : string) :
  key_bytes (appSecret (this w)) = Some key ->
  get request "X-Hub-Signature" = Some declared ->
  String.length declared <> 45%nat ->
  validate globals request response buffer w = (Throw InvalidSignatureError, w).
Proof.
  intros Hkey He Hlen.
  apply (validate_mismatch _ _ _ _ _ key Hkey).
  rewrite He. intros H. apply Hlen.
  assert (Hd : declared = signature key buffer) by congruence.
  rewrite Hd. apply signature_length.
Qed.

Lemma header_of_another_length_is_refused_witness :
  validate node_globals
    (request_with (Some "sha1=b2b40d50d212156383cff67951dc36b60069ebc"))
    VUndefined Fixture.body (World Fixture.verifier [])
  = (Throw InvalidSignatureError, World Fixture.verifier []).
Proof.
  apply (header_of_another_length_is_refused node_globals
           (request_with (Some "sha1=b2b40d50d212156383cff67951dc36b60069ebc"))
           VUndefined Fixture.body (World Fixture.verifier [])
           (list_byte_of_string Fixture.secret)
           "sha1=b2b40d50d212156383cff67951dc36b60069ebc").
  - reflexivity.
  - reflexivity.
  - vm_compute. discriminate.
Defined.

(** X4.  A header that carries the computed digest with any one of its 160
    bits inverted is refused. *)
Theorem inverted_digest_bit_is_refused
  (globals : gmap string value) (request : Request) (response : value)
  (buffer : list byte) (w : world ValidateSignature.ValidateSignature)
  (key : list byte) (i : nat) :
  key_bytes (appSecret (this w)) = Some key ->
  (i < 160)%nat ->
  get request "X-Hub-Signature"
  = Some ("sha1=" +:+ hex (flip_bit i (hmac_sha1 key buffer))) ->
  validate globals request response buffer w = (Throw InvalidSignatureError, w).
Proof. apply validate_rejects_flipped_digest. Qed.

Lemma inverted_digest_bit_is_refused_witness :
  validate node_globals
    (request_with
       (Some ("sha1=" +:+ hex (flip_bit 159
                                  (hmac_sha1 (list_byte_of_string Fixture.secret)
                                             Fixture.body)))))
    VUndefined Fixture.body (World Fixture.verifier [])
  = (Throw InvalidSignatureError, World Fixture.verifier []).
Proof.
  apply (inverted_digest_bit_is_refused node_globals _ VUndefined Fixture.body
           (World Fixture.verifier []) (list_byte_of_string Fixture.secret) 159).
  - reflexivity.
  - lia.
  - apply get_request_with.
Defined.

(** X5.  A verifier whose secret is neither a string nor a buffer throws a
    TypeError from [crypto.createHmac] on every request, before the header is
    looked at: also a request without a header does not get the signature
    error. *)
Theorem unusable_secret_throws_TypeError
  (globals : gmap string value) (request : Request) (response : value)
  (buffer : list byte) (w : world ValidateSignature.ValidateSignature) :
  key_bytes (appSecret (this w)) = None ->
  exists message : string,
    validate globals request response buffer w = (Throw (TypeError message), w).
Proof.
  intros Hkey. eexists.
  unfold validate, bind, lift, get_this.
  rewrite (createHmac_not_key _ Hkey). reflexivity.
Qed.

Lemma unusable_secret_throws_TypeError_witness :
  exists message : string,
    validate node_globals (request_with None) VUndefined Fixture.body
      (World {| appSecret := VNum "42" |} [])
    = (Throw (TypeError message), World {| appSecret := VNum "42" |} []).
Proof.
  apply (unusable_secret_throws_TypeError node_globals (request_with None)
           VUndefined Fixture.body (World {| appSecret := VNum "42" |} [])).
  reflexivity.
Defined.

(** ** [Client.proxyFetchFacebook] *)

Lemma reject_error_field_fulfilled (parsed : json) (v : value)
  (w w' : world Client.Client) :
  reject_error_field parsed w = (Normal (Fulfilled v), w') ->
  v = of_json parsed /\ parsed <> JNull /\ field parsed "error" = None
  /\ w' = w.
Proof.
  unfold reject_error_field, bind, lift, ret.
  destruct parsed as [| |text|s|elems|props]; cbn [of_json hasOwnProperty].
  1: discriminate.
  1-4: intros H; injection H as <- <-; repeat split; discriminate.
  rewrite !has_own_of_json. cbn [field].
  destruct (lookup_field props "hasOwnProperty"); [discriminate|].
  destruct (lookup_field props "error"); cbn [get_data_property].
  - discriminate.
  - intros H; injection H as <- <-; repeat split; discriminate.
Qed.

Lemma reject_error_field_world (parsed : json) (w : world Client.Client) :
  snd (reject_error_field parsed w) = w.
Proof.
  unfold reject_error_field, bind, lift, ret.
  destruct (hasOwnProperty (of_json parsed) "error") as [[|]|e];
    [|reflexivity|reflexivity].
  destruct (get_data_property (of_json parsed) "error"); reflexivity.
Qed.

(** What [proxyFetchFacebook] does with a rejection, whatever its origin. *)
Lemma catch_log_and_wrap (cause : value) (w : world Client.Client) :
  exists name message : string,
    (match log_and_wrap cause w with
     | (Normal q, w') => (q, w')
     | (Throw e, w') => (Rejected e, w')
     end)
    = (Rejected (VErr name message),
       World (this w) (log w ++ [LogEntry "error" cause])).
Proof.
  destruct (log_and_wrap_throws cause w) as (name & message & ->).
  exists name, message. reflexivity.
Qed.

(** X6.  A transport failure, be it [fetch] that rejects or the body that is
    not JSON, is logged and rejected as a plain [Error] that keeps the
    message of the failure and nothing else of it. *)
Theorem transport_failure_rejects_with_plain_error
  (fetch : string -> FetchOptions -> promise Response) (url : string)
  (body : option value) (method : option string) (w : world Client.Client)
  (name message : string) :
  (fetch url (fetch_options (this w) body method)
   = Rejected (VErr name message)
   \/ exists resp : Response,
        fetch url (fetch_options (this w) body method) = Fulfilled resp
        /\ json_body resp = Rejected (VErr name message)) ->
  proxyFetchFacebook fetch url body method w
  = (Rejected (Error message),
     World (this w) (log w ++ [LogEntry "error" (VErr name message)])).
Proof.
  intros [Hfetch | (resp & Hfetch & Hjson)];
    unfold proxyFetchFacebook, catch_, then_; rewrite Hfetch.
  - rewrite (log_and_wrap_message (VErr name message) message);
      reflexivity.
  - cbn [ret]. rewrite Hjson.
    rewrite (log_and_wrap_message (VErr name message) message);
      reflexivity.
Qed.

Lemma transport_failure_rejects_with_plain_error_witness :
  proxyFetchFacebook
    (Fixture.fetch_fails (VErr "FetchError" "getaddrinfo ENOTFOUND"))
    "https://graph.facebook.com/v2.8/me/messages" None None
    (World Fixture.page [])
  = (Rejected (Error "getaddrinfo ENOTFOUND"),
     World Fixture.page
       [LogEntry "error" (VErr "FetchError" "getaddrinfo ENOTFOUND")]).
Proof.
  apply (transport_failure_rejects_with_plain_error
           (Fixture.fetch_fails (VErr "FetchError" "getaddrinfo ENOTFOUND"))
           "https://graph.facebook.com/v2.8/me/messages" None None
           (World Fixture.page []) "FetchError" "getaddrinfo ENOTFOUND").
  left. reflexivity.
Defined.

(** The two ways in which [proxyFetchFacebook] ends. *)
Lemma proxyFetchFacebook_settles
  (fetch : string -> FetchOptions -> promise Response) (url : string)
  (body : option value) (method : option string) (w : world Client.Client) :
  let outcome := proxyFetchFacebook fetch url body method w in
  this (snd outcome) = this w
  /\ match fst outcome with
     | Fulfilled v =>
         log (snd outcome) = log w
         /\ exists (resp : Response) (parsed : json),
              fetch url (fetch_options (this w) body method) = Fulfilled resp
              /\ json_body resp = Fulfilled parsed
              /\ parsed <> JNull
              /\ field parsed "error" = None
              /\ v = of_json parsed
     | Rejected e =>
         (exists name message : string, e = VErr name message)
         /\ exists cause : value,
              log (snd outcome) = log w ++ [LogEntry "error" cause]
     end.
Proof.
  intros outcome. unfold outcome, proxyFetchFacebook, catch_, then_.
  destruct (fetch url (fetch_options (this w) body method))
    as [resp|cause] eqn:Hfetch.
  - cbn [ret]. destruct (json_body resp) as [parsed|cause] eqn:Hjson.
    + destruct (reject_error_field parsed w) as [[[v|cause]|cause] w'] eqn:Hr.
      * apply reject_error_field_fulfilled in Hr as (-> & Hn & He & ->).
        cbn [fst snd]. split; [reflexivity|]. split; [reflexivity|].
        exists resp, parsed. repeat split; assumption.
      * assert (Hw : w' = w)
          by (rewrite <- (reject_error_field_world parsed w), Hr; reflexivity).
        subst w'.
        destruct (catch_log_and_wrap cause w) as (name & message & ->).
        cbn [fst snd this log]. split; [reflexivity|].
        split; [eexists _, _; reflexivity | eexists; reflexivity].
      * assert (Hw : w' = w)
          by (rewrite <- (reject_error_field_world parsed w), Hr; reflexivity).
        subst w'.
        destruct (catch_log_and_wrap cause w) as (name & message & ->).
        cbn [fst snd this log]. split; [reflexivity|].
        split; [eexists _, _; reflexivity | eexists; reflexivity].
    + destruct (catch_log_and_wrap cause w) as (name & message & ->).
      cbn [fst snd this log]. split; [reflexivity|].
      split; [eexists _, _; reflexivity | eexists; reflexivity].
  - destruct (catch_log_and_wrap cause w) as (name & message & ->).
    cbn [fst snd this log]. split; [reflexivity|].
    split; [eexists _, _; reflexivity | eexists; reflexivity].
Qed.

(** X7.  Whatever the remote end does, [proxyFetchFacebook] leaves the client
    as it was and ends in one of two ways: resolved with the parsed body of a
    response that is not [null] and has no [error] field, nothing being
    logged; or rejected with an error object, exactly one entry being added
    to the log. *)
Theorem proxyFetchFacebook_outcomes
  (fetch : string -> FetchOptions -> promise Response) (url : string)
  (body : option value) (method : option string) (w : world Client.Client) :
  let outcome := proxyFetchFacebook fetch url body method w in
  this (snd outcome) = this w
  /\ match fst outcome with
     | Fulfilled v =>
         log (snd outcome) = log w
         /\ exists (resp : Response) (parsed : json),
              fetch url (fetch_options (this w) body method) = Fulfilled resp
              /\ json_body resp = Fulfilled parsed
              /\ parsed <> JNull
              /\ field parsed "error" = None
              /\ v = of_json parsed
     | Rejected e =>
         (exists name message : string, e = VErr name message)
         /\ exists cause : value,
              log (snd outcome) = log w ++ [LogEntry "error" cause]
     end.
Proof. apply proxyFetchFacebook_settles. Qed.

(** X8.  A body whose object does not redefine [hasOwnProperty] and whose
    [error] field is [null] is rejected with a TypeError, not with an
    [Error]: the reaction that wraps the error reads the [message] of
    [null]; the entry written to the log is [null]. *)
Theorem null_error_field_rejects_with_TypeError
  (fetch : string -> FetchOptions -> promise Response) (url : string)
  (body : option value) (method : option string) (w : world Client.Client)
  (resp : Response) (parsed : json) :
  fetch url (fetch_options (this w) body method) = Fulfilled resp ->
  json_body resp = Fulfilled parsed ->
  field parsed "error" = Some JNull ->
  field parsed "hasOwnProperty" = None ->
  exists message : string,
    proxyFetchFacebook fetch url body method w
    = (Rejected (TypeError message),
       World (this w) (log w ++ [LogEntry "error" VNull])).
Proof.
  intros Hfetch Hjson He Hs.
  rewrite (proxyFetchFacebook_parsed _ _ _ _ _ _ _ Hfetch Hjson).
  rewrite (reject_error_field_present _ _ _ He Hs).
  eexists. reflexivity.
Qed.

Lemma null_error_field_rejects_with_TypeError_witness :
  exists message : string,
    proxyFetchFacebook (Fixture.fetch_always (JObj [("error", JNull)]))
      "https://graph.facebook.com/v2.8/me/messages" None None
      (World Fixture.page [])
    = (Rejected (TypeError message),
       World Fixture.page [LogEntry "error" VNull]).
Proof.
  apply (null_error_field_rejects_with_TypeError
           (Fixture.fetch_always (JObj [("error", JNull)]))
           "https://graph.facebook.com/v2.8/me/messages" None None
           (World Fixture.page [])
           {| json_body := Fulfilled (JObj [("error", JNull)]) |}
           (JObj [("error", JNull)]));
    reflexivity.
Defined.

(** X9.  A body whose object does not redefine [hasOwnProperty] and whose
    [error] field is not [null] and has no [message], a string or a number
    for instance, is rejected with an [Error] whose message is empty:
    nothing of the field reaches the caller, it is only written to the
    log. *)
Theorem error_without_message_rejects_with_empty_error
  (fetch : string -> FetchOptions -> promise Response) (url : string)
  (body : option value) (method : option string) (w : world Client.Client)
  (resp : Response) (parsed e : json) :
  fetch url (fetch_options (this w) body method) = Fulfilled resp ->
  json_body resp = Fulfilled parsed ->
  field parsed "error" = Some e ->
  field parsed "hasOwnProperty" = None ->
  e <> JNull ->
  field e "message" = None ->
  proxyFetchFacebook fetch url body method w
  = (Rejected (Error EmptyString),
     World (this w) (log w ++ [LogEntry "error" (of_json e)])).
Proof.
  intros Hfetch Hjson He Hs Hnull Hm.
  rewrite (proxyFetchFacebook_parsed _ _ _ _ _ _ _ Hfetch Hjson).
  rewrite (reject_error_field_present _ _ _ He Hs).
  unfold log_and_wrap, log_error, write_log, bind, lift, throw.
  destruct e as [| |text|s|elems|eprops]; try contradiction; try reflexivity.
  cbn [field] in Hm.
  cbn [of_json get_message get_data_property].
  rewrite own_property_of_json, Hm. reflexivity.
Qed.

Lemma error_without_message_rejects_with_empty_error_witness :
  proxyFetchFacebook (Fixture.fetch_always (JObj [("error", JStr "Unauthorized")]))
    "https://graph.facebook.com/v2.8/me/messages" None None
    (World Fixture.page [])
  = (Rejected (Error EmptyString),
     World Fixture.page [LogEntry "error" (VStr "Unauthorized")]).
Proof.
  apply (error_without_message_rejects_with_empty_error
           (Fixture.fetch_always (JObj [("error", JStr "Unauthorized")]))
           "https://graph.facebook.com/v2.8/me/messages" None None
           (World Fixture.page [])
           {| json_body := Fulfilled (JObj [("error", JStr "Unauthorized")]) |}
           (JObj [("error", JStr "Unauthorized")]) (JStr "Unauthorized"));
    solve [reflexivity | discriminate].
Defined.

(** ** The operations of the client: the client and the log afterwards *)

Lemma keeps_log_lift {A : Type} (c : completion A) :
  keeps_log (lift (T := Client.Client) c).
Proof. intros w. reflexivity. Qed.

Lemma keeps_log_ret {A : Type} (a : A) :
  keeps_log (ret (T := Client.Client) a).
Proof. intros w. reflexivity. Qed.

Lemma keeps_log_get_this : keeps_log (get_this (T := Client.Client)).
Proof. intros w. reflexivity. Qed.

Lemma keeps_log_set_this (c : Client.Client) : keeps_log (set_this c).
Proof. intros w. reflexivity. Qed.

Lemma keeps_log_bind {A B : Type} (c : M Client.Client A)
  (k : A -> M Client.Client B) :
  keeps_log c -> (forall a : A, keeps_log (k a)) -> keeps_log (bind c k).
Proof.
  intros Hc Hk w. unfold bind.
  specialize (Hc w). destruct (c w) as [[a|e] w']; cbn [snd] in *.
  - rewrite Hk. exact Hc.
  - exact Hc.
Qed.

Lemma keeps_log_for_of (keys : list string)
  (body : string -> M Client.Client unit) :
  (forall key : string, keeps_log (body key)) -> keeps_log (for_of keys body).
Proof.
  intros Hb. induction keys as [|key rest IH]; cbn [for_of].
  - apply keeps_log_ret.
  - apply keeps_log_bind; [apply Hb | intros _; exact IH].
Qed.

Lemma keeps_log_for_of_values (items : list value)
  (body : value -> M Client.Client unit) :
  (forall item : value, keeps_log (body item)) ->
  keeps_log (for_of_values items body).
Proof.
  intros Hb. induction items as [|item rest IH]; cbn [for_of_values].
  - apply keeps_log_ret.
  - apply keeps_log_bind; [apply Hb | intros _; exact IH].
Qed.

Lemma keeps_this_for_of_values (items : list value)
  (body : value -> M Client.Client unit) :
  (forall item : value, keeps_this (body item)) ->
  keeps_this (for_of_values items body).
Proof.
  intros Hb. induction items as [|item rest IH]; cbn [for_of_values].
  - apply keeps_this_ret.
  - apply keeps_this_bind; [apply Hb | intros _; exact IH].
Qed.

(** [proxyFetchFacebook], exactly: the promise before its [catch], and what
    the [catch] makes of a rejection. *)
Lemma proxyFetchFacebook_exact
  (fetch : string -> FetchOptions -> promise Response) (url : string)
  (body : option value) (method : option string) (w : world Client.Client) :
  proxyFetchFacebook fetch url body method w
  = match before_catch (fetch url (fetch_options (this w) body method)) with
    | Fulfilled v => (Fulfilled v, w)
    | Rejected cause =>
        (Rejected (wrapped cause),
         World (this w) (log w ++ [LogEntry "error" cause]))
    end.
Proof.
  unfold proxyFetchFacebook, catch_, then_, before_catch.
  destruct (fetch url (fetch_options (this w) body method)) as [resp|cause].
  - cbn [ret]. destruct (json_body resp) as [parsed|cause].
    + unfold reject_error_field, bind, lift, ret. cbv zeta.
      destruct (hasOwnProperty (of_json parsed) "error") as [[|]|cause].
      * destruct (get_data_property (of_json parsed) "error") as [cause|cause];
          rewrite log_and_wrap_exact; reflexivity.
      * reflexivity.
      * rewrite log_and_wrap_exact. reflexivity.
    + rewrite log_and_wrap_exact. reflexivity.
  - rewrite log_and_wrap_exact. reflexivity.
Qed.

Lemma before_catch_fulfilled (fetched : promise Response) (v : value) :
  before_catch fetched = Fulfilled v -> v <> VNull /\ v <> VUndefined.
Proof.
  unfold before_catch.
  destruct fetched as [resp|e]; [|discriminate].
  destruct (json_body resp) as [parsed|e]; [|discriminate].
  cbv zeta.
  destruct (hasOwnProperty (of_json parsed) "error") as [[|]|e] eqn:Hown;
    [|intros H; injection H as <-|discriminate].
  - destruct (get_data_property (of_json parsed) "error"); discriminate.
  - destruct parsed; cbn in Hown; try discriminate Hown;
      split; discriminate.
Qed.

(** The synchronous part of an operation is silent; what follows decides. *)
Lemma logs_rejection_twice_bind {A : Type}
  (fetch : string -> FetchOptions -> promise Response)
  (c : M Client.Client A) (k : A -> M Client.Client (promise value)) :
  keeps_log c -> (forall a : A, logs_rejection_twice fetch (k a)) ->
  logs_rejection_twice fetch (bind c k).
Proof.
  intros Hc Hk w. unfold bind.
  specialize (Hc w). destruct (c w) as [[a|e] w']; cbn [snd] in Hc.
  - specialize (Hk a w'). rewrite Hc in Hk. exact Hk.
  - exact Hc.
Qed.

(** The end of every operation: the promise of [proxyFetchFacebook], a
    reaction to its value that neither throws nor logs, and
    [log_and_reject]. *)
Lemma logs_rejection_twice_tail
  (fetch : string -> FetchOptions -> promise Response) (url : string)
  (body : option value) (method : option string)
  (reaction : value -> M Client.Client (promise value)) :
  (forall (v : value) (w : world Client.Client),
     v <> VNull -> v <> VUndefined ->
     exists v' : value, reaction v w = (Normal (Fulfilled v'), w)) ->
  logs_rejection_twice fetch
    (settle (catch_ (then_ (proxyFetchFacebook fetch url body method) reaction)
                    log_and_reject)).
Proof.
  intros Hreaction w. unfold settle, catch_, then_.
  rewrite proxyFetchFacebook_exact.
  destruct (before_catch (fetch url (fetch_options (this w) body method)))
    as [v|cause] eqn:Hbefore.
  - destruct (before_catch_fulfilled _ _ Hbefore) as (Hnull & Hundef).
    destruct (Hreaction v w Hnull Hundef) as (v' & ->). reflexivity.
  - cbn. exists url, body, method, cause.
    split; [exact Hbefore|]. split; [reflexivity|].
    rewrite <- app_assoc. reflexivity.
Qed.

Lemma logs_rejection_twice_plain_tail
  (fetch : string -> FetchOptions -> promise Response) (url : string)
  (body : option value) (method : option string) :
  logs_rejection_twice fetch
    (settle (catch_ (proxyFetchFacebook fetch url body method) log_and_reject)).
Proof.
  intros w. unfold settle, catch_.
  rewrite proxyFetchFacebook_exact.
  destruct (before_catch (fetch url (fetch_options (this w) body method)))
    as [v|cause] eqn:Hbefore.
  - reflexivity.
  - cbn. exists url, body, method, cause.
    split; [exact Hbefore|]. split; [reflexivity|].
    rewrite <- app_assoc. reflexivity.
Qed.

Ltac keeps :=
  cbv zeta;
  lazymatch goal with
  | |- keeps_this (bind _ _) =>
      apply keeps_this_bind; [keeps | intros ?; keeps]
  | |- keeps_this (then_ _ _) =>
      apply keeps_this_then; [keeps | intros ?; keeps]
  | |- keeps_this (catch_ _ _) =>
      apply keeps_this_catch; [keeps | intros ?; keeps]
  | |- keeps_this (settle _) => apply keeps_this_settle; keeps
  | |- keeps_this (for_of_values _ _) =>
      apply keeps_this_for_of_values; intros ?; keeps
  | |- keeps_this (proxyFetchFacebook _ _ _ _) =>
      apply keeps_this_proxyFetchFacebook
  | |- keeps_this (log_and_reject _) => apply keeps_this_log_and_reject
  | |- keeps_this (lift _) => apply keeps_this_lift
  | |- keeps_this (ret _) => apply keeps_this_ret
  | |- keeps_this get_this => apply keeps_this_get_this
  end.

Ltac silent :=
  cbv zeta;
  lazymatch goal with
  | |- logs_rejection_twice _ (bind _ _) =>
      apply logs_rejection_twice_bind; [silent | intros ?; silent]
  | |- logs_rejection_twice _ (settle (catch_ (then_ _ _) _)) =>
      apply logs_rejection_twice_tail
  | |- logs_rejection_twice _ (settle (catch_ _ _)) =>
      apply logs_rejection_twice_plain_tail
  | |- keeps_log (bind _ _) =>
      apply keeps_log_bind; [silent | intros ?; silent]
  | |- keeps_log (for_of_values _ _) =>
      apply keeps_log_for_of_values; intros ?; silent
  | |- keeps_log (for_of _ _) => apply keeps_log_for_of; intros ?; silent
  | |- keeps_log (lift _) => apply keeps_log_lift
  | |- keeps_log (ret _) => apply keeps_log_ret
  | |- keeps_log (set_this _) => apply keeps_log_set_this
  | |- keeps_log get_this => apply keeps_log_get_this
  end.

Section Requests.

Variable fetch : string -> FetchOptions -> promise Response.
Variable JSON_stringify : value -> value.
Variable oneOf : value -> list value -> string -> string -> completion unit.
Variable notNull : value -> string -> string -> completion unit.
Variable isArray : value -> string -> string -> completion unit.
Variable required : value -> list string -> string -> completion unit.
Variable validate_null : value -> bool.
Variable ImageAttachment_name : string.
Variable AudioAttachment_name : string.
Variable VideoAttachment_name : string.
Variable FileAttachment_name : string.
Variable MessengerProfile_name : string.
Variable validProperties : list value.

Local Abbreviation upload' :=
  (upload fetch JSON_stringify oneOf ImageAttachment_name AudioAttachment_name
          VideoAttachment_name FileAttachment_name).
Local Abbreviation sendMessage' := (sendMessage fetch JSON_stringify oneOf notNull).
Local Abbreviation sendAction' := (sendAction fetch JSON_stringify oneOf notNull).
Local Abbreviation getUserProfile' := (getUserProfile fetch oneOf notNull isArray).
Local Abbreviation markSeen' := (markSeen fetch JSON_stringify oneOf notNull).
Local Abbreviation typingToggle' := (typingToggle fetch JSON_stringify oneOf notNull).
Local Abbreviation getMessengerProfile' :=
  (getMessengerProfile fetch oneOf MessengerProfile_name validProperties).
Local Abbreviation setMessengerProfile' :=
  (setMessengerProfile fetch oneOf MessengerProfile_name validProperties
                       JSON_stringify).
Local Abbreviation deleteMessengerProfile' :=
  (deleteMessengerProfile fetch oneOf MessengerProfile_name validProperties
                          JSON_stringify).

(** X10.  [upload], [sendMessage], [sendAction], [markSeen], [typingToggle]
    and [getUserProfile] leave every field of the client as it was, whether
    they throw, resolve or reject. *)
Theorem requests_leave_the_client_unchanged
  (m : message) (recipientId action typing userId : value)
  (notificationType fields : option value) (w : world Client.Client) :
  this (snd (upload' m w)) = this w
  /\ this (snd (sendMessage' m recipientId notificationType w)) = this w
  /\ this (snd (sendAction' action recipientId w)) = this w
  /\ this (snd (markSeen' recipientId w)) = this w
  /\ this (snd (typingToggle' typing recipientId w)) = this w
  /\ this (snd (getUserProfile' userId fields w)) = this w.
Proof.
  assert (Haction : forall a : value, keeps_this (sendAction' a recipientId))
    by (intros a; unfold sendAction; keeps).
  split; [|split; [|split; [|split; [|split]]]].
  - revert w. change (keeps_this (upload' m)). unfold upload. keeps.
  - revert w.
    change (keeps_this (sendMessage' m recipientId notificationType)).
    unfold sendMessage. keeps.
  - apply Haction.
  - apply Haction.
  - apply Haction.
  - revert w. change (keeps_this (getUserProfile' userId fields)).
    unfold getUserProfile. keeps.
Qed.

(** X11.  Every operation that makes a request writes to the log only when
    its promise is rejected, and then exactly two entries at level error:
    first what the promise of its request had settled with before the
    [catch] of [proxyFetchFacebook] (the rejection of [fetch] or of
    [resp.json()], the [error] field of the body, or what
    [item.hasOwnProperty] threw), then the error the promise is rejected
    with, which is what [new Error(cause.message)] came to for that first
    entry.  A call that throws, or whose promise resolves, writes nothing. *)
Theorem failed_request_is_logged_twice
  (m : message) (recipientId action userId : value)
  (notificationType fields : option value) (profile : argument) :
  logs_rejection_twice fetch (upload' m)
  /\ logs_rejection_twice fetch (sendMessage' m recipientId notificationType)
  /\ logs_rejection_twice fetch (sendAction' action recipientId)
  /\ logs_rejection_twice fetch (getUserProfile' userId fields)
  /\ logs_rejection_twice fetch (getMessengerProfile' profile)
  /\ logs_rejection_twice fetch (setMessengerProfile' profile)
  /\ logs_rejection_twice fetch (deleteMessengerProfile' profile).
Proof.
  assert (Hvalidate : forall flag : bool,
             keeps_log (validateMessengerProfile oneOf MessengerProfile_name
                          validProperties profile flag)).
  { intros flag. unfold validateMessengerProfile, assign_messenger_profile.
    silent. }
  assert (Hid : forall (v : value) (w : world Client.Client),
             v <> VNull -> v <> VUndefined ->
             exists v' : value,
               ret (T := Client.Client) (Fulfilled v) w
               = (Normal (Fulfilled v'), w)).
  { intros v w _ _. exists v. reflexivity. }
  split; [|split; [|split; [|split; [|split; [|split]]]]].
  - unfold upload. silent.
    intros v w Hnull Hundef. unfold bind, lift, ret.
    destruct v; try contradiction; eexists; reflexivity.
  - unfold sendMessage. silent.
  - unfold sendAction. silent.
  - unfold getUserProfile. silent. exact Hid.
  - unfold getMessengerProfile.
    apply logs_rejection_twice_bind; [apply Hvalidate | intros _].
    silent. exact Hid.
  - unfold setMessengerProfile.
    apply logs_rejection_twice_bind; [apply Hvalidate | intros _].
    silent.
  - unfold deleteMessengerProfile.
    apply logs_rejection_twice_bind; [apply Hvalidate | intros _].
    silent.
Qed.

Lemma get_field (parsed : json) (key : string) :
  parsed <> JNull ->
  get_data_property (of_json parsed) key
  = Normal (match field parsed key with
            | Some j => of_json j
            | None => VUndefined
            end).
Proof.
  intros Hnull.
  destruct parsed as [| |text|s|elems|props]; try contradiction;
    try reflexivity.
  cbn [of_json get_data_property field]. rewrite own_property_of_json.
  destruct (lookup_field props key); reflexivity.
Qed.

(** X12.  Whatever [upload] resolves with is the [attachment_id] of a
    response that has no [error] field, and it is [undefined] when the
    response has no [attachment_id]: a reply without the identifier is not
    an error. *)
Theorem upload_resolves_with_attachment_id
  (m : message) (w : world Client.Client) (v : value) :
  fst (upload' m w) = Normal (Fulfilled v) ->
  exists (url : string) (body : option value) (resp : Response)
         (parsed : json),
    fetch url (fetch_options (this w) body None) = Fulfilled resp
    /\ json_body resp = Fulfilled parsed
    /\ field parsed "error" = None
    /\ v = match field parsed "attachment_id" with
           | Some id => of_json id
           | None => VUndefined
           end.
Proof.
  unfold upload, bind at 1, lift at 1.
  destruct (constructor_name (as_argument m)) as [name|e]; [|discriminate].
  unfold bind at 1, lift at 1.
  destruct (oneOf name _ _ _) as [[]|e]; [|discriminate].
  unfold bind at 1, lift at 1.
  destruct (call_forUpload m) as [messageBody|e]; [|discriminate].
  cbv zeta. unfold bind at 1, get_this at 1. cbn [this].
  unfold bind at 1, lift at 1.
  destruct (to_string (pageAccessToken (this w))) as [token|e]; [|discriminate].
  unfold settle, catch_, then_.
  match goal with
  | |- context [proxyFetchFacebook fetch ?u ?b ?mt w] =>
      pose proof (proxyFetchFacebook_settles fetch u b mt w) as H;
      cbv zeta in H;
      destruct (proxyFetchFacebook fetch u b mt w) as [[item|e] w'];
      cbn [fst snd] in H;
      [destruct H as (_ & _ & resp & parsed & Hfetch & Hjson & Hn & He & ->);
       unfold bind, lift, ret; rewrite (get_field _ _ Hn); cbn [fst];
       intros Hv; injection Hv as <-;
       exists u, b, resp, parsed; repeat split; assumption
      |unfold log_and_reject, log_error, write_log, bind, ret; cbn [fst];
       discriminate]
  end.
Qed.

Lemma to_string_strings (fs : list string) :
  to_string (VArr (map VStr fs)) = Normal (String.concat "," fs).
Proof.
  induction fs as [|x rest IH]; [reflexivity|].
  destruct rest as [|y rest'].
  - reflexivity.
  - change (map VStr (x :: y :: rest'))
      with (VStr x :: VStr y :: map VStr rest').
    rewrite to_string_cons.
    change (VStr y :: map VStr rest') with (map VStr (y :: rest')).
    rewrite IH. reflexivity.
Qed.

Lemma for_of_values_accepted (fs : list string)
  (check : value -> completion unit) (w : world Client.Client) :
  Forall (fun f => check (VStr f) = Normal tt) fs ->
  for_of_values (map VStr fs) (fun field => lift (check field)) w
  = (Normal tt, w).
Proof.
  induction 1 as [|f rest Hf Hrest IH]; [reflexivity|].
  cbn [map for_of_values]. unfold bind at 1, lift at 1. rewrite Hf. exact IH.
Qed.

(** X13.  When the checks pass, [getUserProfile] for a list of field names
    is the request GET baseURL/user?fields=...&access_token=token in which
    the names are joined by commas, an empty list giving an empty
    parameter; left out, the list is the seven fields of the file. *)
Theorem getUserProfile_joins_the_fields
  (userId : value) (fields : option value) (fs : list string)
  (user token : string) (w : world Client.Client) :
  or_default (VArr (map VStr userProfileFields)) fields
  = VArr (map VStr fs) ->
  notNull userId "USER_ID" "Client.getProfile" = Normal tt ->
  isArray (VArr (map VStr fs)) "fields" "Client.getProfile" = Normal tt ->
  Forall (fun f => oneOf (VStr f) (map VStr userProfileFields) "fields"
                         "Client.getProfile" = Normal tt) fs ->
  to_string userId = Normal user ->
  to_string (pageAccessToken (this w)) = Normal token ->
  getUserProfile' userId fields w
  = settle (catch_
              (then_ (proxyFetchFacebook fetch
                        (baseURL (this w) +:+ "/" +:+ user +:+ "?fields="
                           +:+ String.concat "," fs
                           +:+ "&access_token=" +:+ token)
                        None (Some "GET"))
                     (fun profile => ret (Fulfilled profile)))
              log_and_reject) w.
Proof.
  intros Hfields HnotNull HisArray Hfs Huser Htoken.
  unfold getUserProfile. cbv zeta. rewrite Hfields.
  unfold bind at 1, lift at 1. rewrite HnotNull.
  unfold bind at 1, lift at 1. rewrite HisArray.
  unfold bind at 1, lift at 1. cbn [iterate].
  unfold bind at 1.
  rewrite (for_of_values_accepted fs
             (fun field => oneOf field (map VStr userProfileFields) "fields"
                                 "Client.getProfile") w Hfs).
  unfold bind at 1, get_this at 1.
  unfold bind at 1, lift at 1. rewrite Huser.
  unfold bind at 1, lift at 1. rewrite to_string_strings.
  unfold bind at 1, lift at 1. cbn [this]. rewrite Htoken.
  reflexivity.
Qed.

(** [setProxy], case by case. *)
Lemma setProxy_cases (proxy : value) (w : world Client.Client) :
  let outcome := setProxy required validate_null proxy w in
  (baseURL (this (snd outcome)) = baseURL (this w)
   /\ pageAccessToken (this (snd outcome)) = pageAccessToken (this w)
   /\ messenger_profile (this (snd outcome)) = messenger_profile (this w)
   /\ log (snd outcome) = log w)
  /\ (forall e : value, fst outcome = Throw e -> snd outcome = w)
  /\ (validate_null proxy = true ->
      outcome = (Normal tt, World (with_proxyAgent (this w) None) (log w)))
  /\ (validate_null proxy = false -> fst outcome = Normal tt ->
      exists (hostname port : value) (h p : string),
        get_data_property proxy "hostname" = Normal hostname
        /\ to_string hostname = Normal h
        /\ get_data_property proxy "port" = Normal port
        /\ to_string port = Normal p
        /\ proxyAgent (this (snd outcome)) = Some (h +:+ ":" +:+ p)).
Proof.
  intros outcome. unfold outcome, setProxy, bind, lift, get_this, set_this.
  assert (Hthrow : forall e0 : value,
             let failed := (Throw (A := unit) e0, w) in
             (baseURL (this (snd failed)) = baseURL (this w)
              /\ pageAccessToken (this (snd failed)) = pageAccessToken (this w)
              /\ messenger_profile (this (snd failed))
                 = messenger_profile (this w)
              /\ log (snd failed) = log w)
             /\ (forall e : value, fst failed = Throw e -> snd failed = w)
             /\ (false = true ->
                 failed
                 = (Normal tt, World (with_proxyAgent (this w) None) (log w)))
             /\ (false = false -> fst failed = Normal tt ->
                 exists (hostname port : value) (h p : string),
                   get_data_property proxy "hostname" = Normal hostname
                   /\ to_string hostname = Normal h
                   /\ get_data_property proxy "port" = Normal port
                   /\ to_string port = Normal p
                   /\ proxyAgent (this (snd failed)) = Some (h +:+ ":" +:+ p))).
  { intros e0 failed. unfold failed. cbn [fst snd].
    split; [repeat split|]. split; [reflexivity|].
    split; [discriminate|]. intros _ H. discriminate H. }
  destruct (validate_null proxy).
  - cbn [fst snd this log baseURL pageAccessToken messenger_profile
         with_proxyAgent].
    split; [repeat split|]. split; [intros e H; discriminate H|].
    split; [reflexivity|]. intros H. discriminate H.
  - destruct (required proxy _ _) as [[]|e0]; [|apply Hthrow].
    destruct (get_data_property proxy "hostname") as [hostname|e0];
      [|apply Hthrow].
    destruct (to_string hostname) as [h|e0] eqn:Hh; [|apply Hthrow].
    destruct (get_data_property proxy "port") as [port|e0]; [|apply Hthrow].
    destruct (to_string port) as [p|e0] eqn:Hp; [|apply Hthrow].
    cbn [fst snd this log baseURL pageAccessToken messenger_profile
         proxyAgent with_proxyAgent].
    split; [repeat split|]. split; [intros e H; discriminate H|].
    split; [intros H; discriminate H|]. intros _ _.
    exists hostname, port, h, p. repeat split; assumption.
Qed.

(** X14.  [setProxy] changes no field but [proxyAgent] and writes nothing
    to the log; when it throws, the agent too is what it was; when
    [validate.null] answers yes for the proxy, the agent is reset to
    [null]; and when it returns for another proxy, the agent is the one
    for hostname:port. *)
Theorem setProxy_changes_the_agent_only
  (proxy : value) (w : world Client.Client) :
  let outcome := setProxy required validate_null proxy w in
  (baseURL (this (snd outcome)) = baseURL (this w)
   /\ pageAccessToken (this (snd outcome)) = pageAccessToken (this w)
   /\ messenger_profile (this (snd outcome)) = messenger_profile (this w)
   /\ log (snd outcome) = log w)
  /\ (forall e : value, fst outcome = Throw e -> snd outcome = w)
  /\ (validate_null proxy = true ->
      outcome = (Normal tt, World (with_proxyAgent (this w) None) (log w)))
  /\ (validate_null proxy = false -> fst outcome = Normal tt ->
      exists (hostname port : value) (h p : string),
        get_data_property proxy "hostname" = Normal hostname
        /\ to_string hostname = Normal h
        /\ get_data_property proxy "port" = Normal port
        /\ to_string port = Normal p
        /\ proxyAgent (this (snd outcome)) = Some (h +:+ ":" +:+ p)).
Proof. apply setProxy_cases. Qed.

(** X15.  [new Client] checks the version of the API before the token: an
    error of the first check is the error of the constructor whatever the
    token.  A client that comes out of the constructor has passed both
    checks; its [baseURL] is https://graph.facebook.com/ followed by the
    version, v2.8 when none is given, its token is the one given, and it has
    no [messenger_profile] yet. *)
Theorem new_Client_checks_then_builds
  (token : value) (proxy platformAPIVersion : option value) :
  let version := or_default (VStr "v2.8") platformAPIVersion in
  (forall e : value,
     oneOf version (map VStr validPlatformAPIVersions) "API Version"
           "Client.constructor" = Throw e ->
     new_Client oneOf notNull required validate_null token proxy
                platformAPIVersion = Throw e)
  /\ forall c : Client.Client,
       new_Client oneOf notNull required validate_null token proxy
                  platformAPIVersion = Normal c ->
       oneOf version (map VStr validPlatformAPIVersions) "API Version"
             "Client.constructor" = Normal tt
       /\ notNull token "PAGE_ACCESS_TOKEN" "Client.constructor" = Normal tt
       /\ (exists text : string,
             to_string version = Normal text
             /\ baseURL c = "https://graph.facebook.com/" +:+ text)
       /\ pageAccessToken c = token
       /\ messenger_profile c = None.
Proof.
  intros version. unfold new_Client. cbv zeta. fold version. split.
  - intros e ->. reflexivity.
  - intros c.
    destruct (oneOf version _ _ _) as [[]|e]; [|discriminate].
    destruct (notNull token _ _) as [[]|e]; [|discriminate].
    cbn [cbind].
    destruct (to_string version) as [text|e]; [|discriminate].
    cbn [cbind].
    match goal with
    | |- context [setProxy required validate_null ?p ?w0] =>
        pose proof (setProxy_cases p w0) as H;
        cbv zeta in H;
        destruct (setProxy required validate_null p w0) as [[[]|e] w1]
    end; [|discriminate].
    cbn [fst snd this] in H. destruct H as ((Hb & Ht & Hm & _) & _).
    intros Hc. injection Hc as <-.
    split; [reflexivity|]. split; [reflexivity|].
    split; [exists text; split; [reflexivity | exact Hb]|].
    split; assumption.
Qed.

Lemma for_of_refused (keys : list string) (check : string -> completion unit)
  (w : world Client.Client) :
  Exists (fun key => exists e : value, check key = Throw e) keys ->
  exists e : value, for_of keys (fun key => lift (check key)) w = (Throw e, w).
Proof.
  induction keys as [|key rest IH]; intros Hex.
  - inversion Hex.
  - cbn [for_of]. unfold bind at 1, lift at 1.
    destruct (check key) as [[]|e] eqn:Hkey.
    + apply IH. inversion Hex as [? ? [e He]|]; [congruence | assumption].
    + exists e. reflexivity.
Qed.

Lemma validateMessengerProfile_refused (class_name : string) (object : value)
  (keys : list string) (flag : bool) (w : world Client.Client) :
  oneOf (VStr class_name) [VStr MessengerProfile_name] "Messenger Profile"
        "Client.validateMessengerProfile" = Normal tt ->
  Object_keys object = Normal keys ->
  Exists (fun key =>
            exists e : value,
              oneOf (VStr key)
                    (if flag then [VStr "fields"] else validProperties)
                    "messenger_profile" "Client.validateMessengerProfile"
              = Throw e) keys ->
  exists e : value,
    validateMessengerProfile oneOf MessengerProfile_name validProperties
      (Instance class_name (Some object)) flag w
    = (Throw e, World (with_messenger_profile (this w) object) (log w)).
Proof.
  intros Hclass Hkeys Hex.
  unfold validateMessengerProfile.
  unfold bind at 1, lift at 1. cbn [constructor_name].
  unfold bind at 1, lift at 1. rewrite Hclass.
  unfold bind at 1, lift at 1. cbn [call_toObject].
  unfold bind at 1, assign_messenger_profile, bind at 1, get_this at 1,
    set_this.
  unfold bind at 1, get_this at 1. cbn [this log].
  unfold bind at 1, lift at 1.
  unfold read_messenger_profile.
  change (default VUndefined
            (messenger_profile (with_messenger_profile (this w) object)))
    with object.
  rewrite Hkeys.
  apply (for_of_refused keys
           (fun key => oneOf (VStr key)
                             (if flag then [VStr "fields"] else validProperties)
                             "messenger_profile"
                             "Client.validateMessengerProfile")).
  exact Hex.
Qed.

(** X16.  When the profile has passed the check of its class and one of
    the keys of its object is refused, [getMessengerProfile],
    [deleteMessengerProfile] (which allow the key fields only) and
    [setMessengerProfile] (which allows the valid properties) throw without
    a request or a log entry, and yet [messenger_profile] has been
    overwritten with the refused object. *)
Theorem refused_key_still_overwrites_the_profile
  (class_name : string) (object : value) (keys : list string)
  (w : world Client.Client) :
  oneOf (VStr class_name) [VStr MessengerProfile_name] "Messenger Profile"
        "Client.validateMessengerProfile" = Normal tt ->
  Object_keys object = Normal keys ->
  let refused (allowed : list value) (key : string) : Prop :=
    exists e : value,
      oneOf (VStr key) allowed "messenger_profile"
            "Client.validateMessengerProfile" = Throw e in
  let after := World (with_messenger_profile (this w) object) (log w) in
  (Exists (refused [VStr "fields"]) keys ->
   (exists e : value,
      getMessengerProfile' (Instance class_name (Some object)) w
      = (Throw e, after))
   /\ (exists e : value,
         deleteMessengerProfile' (Instance class_name (Some object)) w
         = (Throw e, after)))
  /\ (Exists (refused validProperties) keys ->
      exists e : value,
        setMessengerProfile' (Instance class_name (Some object)) w
        = (Throw e, after)).
Proof.
  intros Hclass Hkeys refused after. split.
  - intros Hex.
    destruct (validateMessengerProfile_refused class_name object keys true w
                Hclass Hkeys Hex) as (e & He).
    split; exists e.
    + unfold getMessengerProfile, bind at 1. rewrite He. reflexivity.
    + unfold deleteMessengerProfile, bind at 1. rewrite He. reflexivity.
  - intros Hex.
    destruct (validateMessengerProfile_refused class_name object keys false w
                Hclass Hkeys Hex) as (e & He).
    exists e. unfold setMessengerProfile, bind at 1. rewrite He. reflexivity.
Qed.

End Requests.

Lemma upload_resolves_with_attachment_id_witness :
  exists (url : string) (body : option value) (resp : Response)
         (parsed : json),
    Fixture.fetch_always (JObj [("result", JStr "ok")]) url
      (fetch_options Fixture.page body None)
    = Fulfilled resp
    /\ json_body resp = Fulfilled parsed
    /\ field parsed "error" = None
    /\ VUndefined = match field parsed "attachment_id" with
                    | Some id => of_json id
                    | None => VUndefined
                    end.
Proof.
  apply (upload_resolves_with_attachment_id
           (Fixture.fetch_always (JObj [("result", JStr "ok")]))
           Fixture.JSON_stringify Fixture.oneOf
           "ImageAttachment" "AudioAttachment" "VideoAttachment"
           "FileAttachment" Fixture.image (World Fixture.page []) VUndefined).
  reflexivity.
Defined.

Lemma getUserProfile_joins_the_fields_witness :
  getUserProfile (Fixture.fetch_always (JObj [("first_name", JStr "Ada")]))
    Fixture.oneOf Fixture.notNull Fixture.isArray (VStr "1234") None
    (World Fixture.page [])
  = settle (catch_
              (then_ (proxyFetchFacebook
                        (Fixture.fetch_always (JObj [("first_name", JStr "Ada")]))
                        ("https://graph.facebook.com/v2.8/1234?fields="
                           +:+ "first_name,last_name,profile_pic,locale,"
                           +:+ "timezone,gender,is_payment_enabled"
                           +:+ "&access_token=PAGE_ACCESS_TOKEN")
                        None (Some "GET"))
                     (fun profile => ret (Fulfilled profile)))
              log_and_reject) (World Fixture.page []).
Proof.
  apply (getUserProfile_joins_the_fields
           (Fixture.fetch_always (JObj [("first_name", JStr "Ada")]))
           Fixture.oneOf Fixture.notNull Fixture.isArray
           (VStr "1234") None userProfileFields "1234" "PAGE_ACCESS_TOKEN"
           (World Fixture.page [])).
  - reflexivity.
  - reflexivity.
  - reflexivity.
  - repeat constructor.
  - reflexivity.
  - reflexivity.
Defined.

Lemma setProxy_changes_the_agent_only_witness :
  exists (hostname port : value) (h p : string),
    get_data_property
      (VObj [("hostname", VStr "proxy.example"); ("port", VNum "8080")])
      "hostname" = Normal hostname
    /\ to_string hostname = Normal h
    /\ get_data_property
         (VObj [("hostname", VStr "proxy.example"); ("port", VNum "8080")])
         "port" = Normal port
    /\ to_string port = Normal p
    /\ proxyAgent
         (this (snd (setProxy Fixture.required Fixture.validate_null
                       (VObj [("hostname", VStr "proxy.example");
                              ("port", VNum "8080")])
                       (World Fixture.page []))))
       = Some (h +:+ ":" +:+ p).
Proof.
  apply (setProxy_changes_the_agent_only Fixture.required
           Fixture.validate_null
           (VObj [("hostname", VStr "proxy.example"); ("port", VNum "8080")])
           (World Fixture.page [])); reflexivity.
Defined.

Lemma new_Client_checks_then_builds_witness :
  Fixture.oneOf (VStr "v2.8") (map VStr validPlatformAPIVersions)
    "API Version" "Client.constructor" = Normal tt
  /\ Fixture.notNull (VStr "PAGE_ACCESS_TOKEN") "PAGE_ACCESS_TOKEN"
       "Client.constructor" = Normal tt
  /\ (exists text : string,
        to_string (VStr "v2.8") = Normal text
        /\ baseURL Fixture.page = "https://graph.facebook.com/" +:+ text)
  /\ pageAccessToken Fixture.page = VStr "PAGE_ACCESS_TOKEN"
  /\ messenger_profile Fixture.page = None.
Proof.
  apply (new_Client_checks_then_builds Fixture.oneOf Fixture.notNull
           Fixture.required Fixture.validate_null
           (VStr "PAGE_ACCESS_TOKEN") None None).
  reflexivity.
Defined.

Lemma refused_key_still_overwrites_the_profile_witness :
  exists e : value,
    getMessengerProfile (Fixture.fetch_always (JObj [("data", JArr [])]))
      Fixture.oneOf Fixture.MessengerProfile_name Fixture.validProperties
      (Instance "MessengerProfile" (Some (VObj [("greeting", VStr "hi")])))
      (World Fixture.page [])
    = (Throw e,
       World (with_messenger_profile Fixture.page
                (VObj [("greeting", VStr "hi")])) []).
Proof.
  refine (proj1 (proj1 (refused_key_still_overwrites_the_profile
            (Fixture.fetch_always (JObj [("data", JArr [])]))
            Fixture.JSON_stringify Fixture.oneOf
            Fixture.MessengerProfile_name Fixture.validProperties
            "MessengerProfile" (VObj [("greeting", VStr "hi")]) ["greeting"]
            (World Fixture.page []) _ _) _)).
  - reflexivity.
  - reflexivity.
  - constructor. eexists. reflexivity.
Defined.

(** ** The deprecated names *)

Lemma or_default_twice (d : value) (o : option value) :
  or_default d (Some (or_default d o)) = or_default d o.
Proof.
  destruct o as [v|]; cbn [or_default].
  - destruct v; try reflexivity. destruct d; reflexivity.
  - destruct d; reflexivity.
Qed.

(** X17.  Each deprecated method is its replacement under another name,
    defaults included: [send] and [getProfile] fill in a missing or
    [undefined] argument themselves and the replacement, given the filled-in
    value, does not change it. *)
Theorem deprecated_names_are_synonyms
  (fetch : string -> FetchOptions -> promise Response)
  (JSON_stringify : value -> value)
  (oneOf : value -> list value -> string -> string -> completion unit)
  (notNull isArray : value -> string -> string -> completion unit)
  (MessengerProfile_name : string) (validProperties : list value)
  (m : message) (recipientId action userId : value)
  (notificationType fields : option value) (profile : argument) :
  send fetch JSON_stringify oneOf notNull m recipientId notificationType
  = sendMessage fetch JSON_stringify oneOf notNull m recipientId
                notificationType
  /\ getProfile fetch oneOf notNull isArray userId fields
     = getUserProfile fetch oneOf notNull isArray userId fields
  /\ senderActions fetch JSON_stringify oneOf notNull action recipientId
     = sendAction fetch JSON_stringify oneOf notNull action recipientId
  /\ viewBotSettings fetch oneOf MessengerProfile_name validProperties profile
     = getMessengerProfile fetch oneOf MessengerProfile_name validProperties
                           profile
  /\ updateBotSettings fetch oneOf MessengerProfile_name validProperties
                       JSON_stringify profile
     = setMessengerProfile fetch oneOf MessengerProfile_name validProperties
                           JSON_stringify profile
  /\ deleteBotSettings fetch oneOf MessengerProfile_name validProperties
                       JSON_stringify profile
     = deleteMessengerProfile fetch oneOf MessengerProfile_name
                              validProperties JSON_stringify profile.
Proof.
  split; [|split; [|split; [|split; [|split]]]]; try reflexivity.
  - unfold send, sendMessage. cbv zeta.
    rewrite or_default_twice. reflexivity.
  - unfold getProfile, getUserProfile. cbv zeta.
    rewrite or_default_twice. reflexivity.
Qed.

(** ** The case of the header *)

Lemma hex_has_no_upper (bs : list byte) : has_upper (hex bs) = false.
Proof.
  induction bs as [|b rest IH]; [reflexivity|].
  cbn [hex has_upper]. rewrite IH.
  destruct b; reflexivity.
Qed.

Lemma signature_has_no_upper (key buffer : list byte) :
  has_upper (signature key buffer) = false.
Proof.
  unfold signature. cbv beta iota delta [String.append].
  cbn [has_upper]. rewrite hex_has_no_upper. reflexivity.
Qed.

(** X18.  The computed signature has no capital letter, so a header in
    which one occurs, the digest in uppercase hexadecimal or the prefix
    SHA1 for instance, is refused. *)
Theorem header_with_a_capital_is_refused
  (globals : gmap string value) (request : Request) (response : value)
  (buffer : list byte) (w : world ValidateSignature.ValidateSignature)
  (key : list byte) (declared : string) :
  key_bytes (appSecret (this w)) = Some key ->
  get request "X-Hub-Signature" = Some declared ->
  has_upper declared = true ->
  validate globals request response buffer w = (Throw InvalidSignatureError, w).
Proof.
  intros Hkey He Hupper.
  apply (validate_mismatch _ _ _ _ _ key Hkey).
  rewrite He. intros H.
  assert (Hd : declared = signature key buffer) by congruence.
  rewrite Hd, signature_has_no_upper in Hupper. discriminate Hupper.
Qed.

Lemma header_with_a_capital_is_refused_witness :
  validate node_globals
    (request_with (Some "SHA1=b2b40d50d212156383cff67951dc36b60069ebcc"))
    VUndefined Fixture.body (World Fixture.verifier [])
  = (Throw InvalidSignatureError, World Fixture.verifier []).
Proof.
  apply (header_with_a_capital_is_refused node_globals
           (request_with (Some "SHA1=b2b40d50d212156383cff67951dc36b60069ebcc"))
           VUndefined Fixture.body (World Fixture.verifier [])
           (list_byte_of_string Fixture.secret)
           "SHA1=b2b40d50d212156383cff67951dc36b60069ebcc").
  - reflexivity.
  - reflexivity.
  - reflexivity.
Defined.

(** ** Text and keys on concrete values *)

Example buffer_with_an_invalid_byte :
  to_string (VBuf [xff]) = Normal (string_of_list_byte [xef; xbf; xbd]).
Proof. reflexivity. Qed.

Example buffer_with_a_cut_sequence :
  to_string (VBuf [x61; xe2; x82; x62])
  = Normal (string_of_list_byte [x61; xef; xbf; xbd; x62]).
Proof. reflexivity. Qed.

Example keys_of_an_accented_letter :
  Object_keys (VStr (string_of_list_byte [xc3; xa9])) = Normal ["0"].
Proof. reflexivity. Qed.

Example keys_of_an_object_in_order :
  Object_keys (VObj [("b", VNull); ("2", VNull); ("a", VNull); ("10", VNull);
                     ("1", VNull); ("01", VNull)])
  = Normal ["1"; "2"; "10"; "b"; "a"; "01"].
Proof. reflexivity. Qed.

Example units_outside_the_basic_plane :
  spread (VStr (string_of_list_byte [xf0; x9f; x98; x80]))
  = [("0", VStr (string_of_list_byte [xed; xa0; xbd]));
     ("1", VStr (string_of_list_byte [xed; xb8; x80]))].
Proof. reflexivity. Qed.
